(** * Yt-to-Summary: a shallow embedding of [app.py]

    The program is a Streamlit script: it reads a link, extracts a video
    identifier with a regular expression, fetches the captions of the video,
    prepends a fixed prompt and asks a generative model for notes.

    A Python [str] is represented by a [string] holding its UTF-8 bytes.  The
    regular expression of the program only names ASCII characters, and no byte
    of a multi-byte UTF-8 sequence is ASCII, so matching on bytes and matching
    on code points select the same identifier.

    The two services are parameters: they may answer or raise anything, and
    change their own state while doing so.  What a service raises is an
    instance of Python's [Exception], the class that the handlers of the
    program name; an exception outside that class, which the interpreter can
    raise inside a call, is what a platform that is no service can do.
    The Streamlit calls only draw; each one is recorded in a log, as is each
    call to a service.  Lines 8-12 of the script, which configure the client
    of the generative model, draw nothing and call neither service; they
    leave no trace in the log. *)

From Stdlib Require Import Ascii NArith Floats.SpecFloat.
From Stdlib Require String.
From stdpp Require Import base option list gmap strings.

(** ** Strings *)

Module Str.

Fixpoint take (n : nat) (s : string) : string :=
  match n, s with
  | S n', String c s' => String c (take n' s')
  | _, _ => EmptyString
  end.

Fixpoint all (p : ascii -> bool) (s : string) : bool :=
  match s with
  | EmptyString => true
  | String c s' => p c && all p s'
  end.

(** Python's truth value of a [str]: only the empty string is false. *)
Definition truthy (s : string) : bool :=
  match s with
  | EmptyString => false
  | String _ _ => true
  end.

End Str.

(** ** The fragment of Python's [re] that [get_video_id] uses

    A backtracking matcher in continuation-passing style: alternatives are
    tried left to right, repetitions are greedy, and a capturing group records
    the text its body consumed. *)

Module Re.

Inductive class_item : Type :=
| Single (c : ascii)
| Range (lo hi : ascii).

Inductive regex : Type :=
| Lit (c : ascii)
| Class (items : list class_item)
| Dot
| Seq (r1 r2 : regex)
| Alt (r1 r2 : regex)
| Repeat (n : nat) (r : regex)
| Star (r : regex)
| Group (i : nat) (r : regex).

(** What a match object holds: the text of each group that took part. *)
Abbreviation Match := (gmap nat string).

Definition in_item (c : ascii) (it : class_item) : bool :=
  match it with
  | Single x => Ascii.eqb c x
  | Range lo hi =>
      (N_of_ascii lo <=? N_of_ascii c)%N && (N_of_ascii c <=? N_of_ascii hi)%N
  end.

Definition in_class (items : list class_item) (c : ascii) : bool :=
  existsb (in_item c) items.

(** [.] without the DOTALL flag: any character but a newline. *)
Definition newline : ascii := "010"%char.

Definition dot_char (c : ascii) : bool := negb (Ascii.eqb c newline).

(** A matcher gets the rest of the input, the groups so far and what to do
    with the input it leaves; [None] makes the caller try its next choice. *)
Definition matcher : Type :=
  string -> Match -> (string -> Match -> option Match) -> option Match.

Definition one (p : ascii -> bool) : matcher :=
  fun s g k =>
    match s with
    | String c s' => if p c then k s' g else None
    | EmptyString => None
    end.

(** [step{n}]: exactly [n] rounds of [step]. *)
Fixpoint repeat (step : matcher) (n : nat) : matcher :=
  fun s g k =>
    match n with
    | O => k s g
    | S n' => step s g (fun s' g' => repeat step n' s' g' k)
    end.

(** [step*]: as many rounds as possible first, then fewer.  A round has to
    consume input to be followed by another one, so the length of the input
    bounds the number of rounds. *)
Fixpoint star (step : matcher) (fuel : nat) : matcher :=
  fun s g k =>
    match fuel with
    | O => k s g
    | S fuel' =>
        match
          step s g (fun s' g' =>
            if decide (String.length s' < String.length s)
            then star step fuel' s' g' k else None)
        with
        | Some m => Some m
        | None => k s g
        end
    end.

Fixpoint rmatch (r : regex) : matcher :=
  match r with
  | Lit c => one (fun x => Ascii.eqb x c)
  | Class items => one (in_class items)
  | Dot => one dot_char
  | Seq r1 r2 => fun s g k => rmatch r1 s g (fun s' g' => rmatch r2 s' g' k)
  | Alt r1 r2 =>
      fun s g k =>
        match rmatch r1 s g k with
        | Some m => Some m
        | None => rmatch r2 s g k
        end
  | Repeat n r1 => repeat (rmatch r1) n
  | Star r1 => fun s g k => star (rmatch r1) (String.length s) s g k
  | Group i r1 =>
      fun s g k =>
        rmatch r1 s g (fun s' g' =>
          k s' (<[i := Str.take (String.length s - String.length s') s]> g'))
  end.

(** An attempt at one start position; group 0 is the whole match. *)
Definition match_here (r : regex) (s : string) : option Match :=
  rmatch (Group 0 r) s ∅ (fun _ g => Some g).

(** [re.search]: the first start position, from the left, with a match. *)
Fixpoint search (r : regex) (s : string) : option Match :=
  match match_here r s with
  | Some m => Some m
  | None =>
      match s with
      | EmptyString => None
      | String _ s' => search r s'
      end
  end.

(** [match.group(i)]. *)
Definition group (m : Match) (i : nat) : option string := m !! i.

End Re.

(** ** [get_video_id] *)

(** The character class [[0-9A-Za-z_-]]. *)
Definition id_class : list Re.class_item :=
  [Re.Range "0" "9"; Re.Range "A" "Z"; Re.Range "a" "z";
   Re.Single "_"; Re.Single "-"]%char.

(** The pattern [(?:v=|\/)([0-9A-Za-z_-]{11}).*]. *)
Definition pattern : Re.regex :=
  Re.Seq (Re.Alt (Re.Seq (Re.Lit "v"%char) (Re.Lit "="%char)) (Re.Lit "/"%char))
    (Re.Seq (Re.Group 1 (Re.Repeat 11 (Re.Class id_class)))
            (Re.Star Re.Dot)).

Definition get_video_id (url : string) : option string :=
  match Re.search pattern url with
  | Some m => Re.group m 1
  | None => None
  end.

(** ** Python values, exceptions and results *)

(** The values a caption fragment can hold under a key. *)
Inductive pyval : Type :=
| PyStr (s : string)
| PyFloat (x : spec_float)
| PyNone.

Definition type_name (v : pyval) : string :=
  match v with
  | PyStr _ => "str"
  | PyFloat _ => "float"
  | PyNone => "NoneType"
  end.

(** A caption fragment is a [dict], such as
    [{"text": ..., "start": ..., "duration": ...}]. *)
Abbreviation fragment := (gmap string pyval).

(** Instances of Python's [Exception]: the two classes of
    [youtube_transcript_api] that the program names, the two that its own
    expressions can raise, and any other one.  The program looks at the class
    of an exception and at the text [str(e)] and at nothing else; an
    exception is represented by its class and by that text, [msg]. *)
Inductive exn : Type :=
| TranscriptsDisabled (msg : string)
| NoTranscriptFound (msg : string)
| KeyError (msg : string)
| TypeError (msg : string)
| OtherException (msg : string).

Definition dq : string := String "034"%char EmptyString.

(** [str(e)], as the f-strings of the handlers format it. *)
Definition exn_str (e : exn) : string :=
  match e with
  | TranscriptsDisabled msg => msg
  | NoTranscriptFound msg => msg
  | KeyError msg => msg
  | TypeError msg => msg
  | OtherException msg => msg
  end.

(** Instances of [BaseException] that are no instances of [Exception]: the
    interpreter raises them to stop what is running, and [except Exception]
    lets them pass. *)
Inductive base_exn : Type :=
| KeyboardInterrupt
| SystemExit
| OtherBaseException (class_name : string).

(** What a [raise] carries: an instance of [Exception], or of
    [BaseException] only. *)
Inductive raised : Type :=
| Error (e : exn)
| NotAnError (b : base_exn).

(** [repr(s)] for a [str], which is the text of the [KeyError] that a missing
    key gives.  Double quotes are used when the text holds a single quote and
    no double quote, single quotes otherwise; the quote used and the
    backslash are escaped, tab, newline and carriage return get their letter,
    the other control characters their code.  Characters outside ASCII are
    copied, which is what Python does with the printable ones; the one key
    the script asks for is ["text"]. *)
Module Repr.

Definition holds (c : ascii) (s : string) : bool :=
  negb (Str.all (fun x => negb (Ascii.eqb x c)) s).

Definition quote (s : string) : ascii :=
  if holds "'" s && negb (holds "034" s) then "034"%char else "'"%char.

Definition hex_digit (n : N) : ascii :=
  ascii_of_N (if (n <? 10)%N then 48 + n else 87 + n)%N.

Definition char (q c : ascii) : string :=
  let n := N_of_ascii c in
  if Ascii.eqb c q || Ascii.eqb c "\" then String "\" (String c "")
  else if Ascii.eqb c "009" then "\t"
  else if Ascii.eqb c "010" then "\n"
  else if Ascii.eqb c "013" then "\r"
  else if (n <? 32)%N || (n =? 127)%N then
    String "\" (String "x" (String (hex_digit (n / 16)) (String (hex_digit (n mod 16)) "")))
  else String c "".

Fixpoint body (q : ascii) (s : string) : string :=
  match s with
  | EmptyString => EmptyString
  | String c s' => char q c +:+ body q s'
  end.

Definition repr (s : string) : string :=
  String (quote s) (body (quote s) s) +:+ String (quote s) "".

End Repr.

Inductive outcome (A : Type) : Type :=
| Ok (a : A)
| Raise (e : exn).
Arguments Ok {A} a.
Arguments Raise {A} e.

(** [d[key]] on a [dict]. *)
Definition getitem (d : fragment) (key : string) : outcome pyval :=
  match d !! key with
  | Some v => Ok v
  | None => Raise (KeyError (Repr.repr key))
  end.

(** [a + b] with [a] a [str]. *)
Definition str_add (a : string) (b : pyval) : outcome string :=
  match b with
  | PyStr s => Ok (a +:+ s)
  | _ =>
      Raise (TypeError ("can only concatenate str (not " +:+ dq +:+ type_name b
                        +:+ dq +:+ ") to str"))
  end.

(** [if x:] on a value that is a [str] or [None]. *)
Definition truthy (x : option string) : bool :=
  match x with
  | Some s => Str.truthy s
  | None => false
  end.

(** ** The two services and the page

    Everything the script does to the outside is recorded, in order, in a log:
    the calls to the two services and the Streamlit elements it draws. *)

Inductive event : Type :=
| Call_get_transcript (video_id : string)
| Call_generate_content (model_name prompt : string)
| St_set_page_config (page_title page_icon layout : string)
| St_title (body : string)
| St_markdown (body : string)
| St_subheader (body : string)
| St_text_input (label : string)
| St_button (label : string)
| St_image (image : string) (use_column_width : bool) (width : nat)
| St_warning (body : string)
| St_error (body : string)
| St_spinner_enter (text : string)
| St_spinner_exit.

(** The object [model.generate_content] returns; reading [response.text] can
    raise. *)
Record response : Type := { text : outcome string }.

(** The transcript service and the generative-text service, over a state [W]
    of the outside world that a call may change. *)
Class Services (W : Type) : Type := {
  get_transcript : string -> W -> outcome (list fragment) * W;
  generate_content : string -> string -> W -> outcome response * W
}.

(** How a statement ends: it returns, or it raises. *)
Inductive ending (A : Type) : Type :=
| Returns (a : A)
| Raises (x : raised).
Arguments Returns {A} a.
Arguments Raises {A} x.

(** A result or an error, as an ending. *)
Definition ends {A} (r : outcome A) : ending A :=
  match r with
  | Ok a => Returns a
  | Raise e => Raises (Error e)
  end.

(** What the two calls can do in Python: return, raise an error, or be left
    by an exception that is no error, such as the [KeyboardInterrupt] that
    the interpreter raises inside whatever call is running.  The script is
    written over a platform; [Services] are the platforms whose calls return
    or raise errors. *)
Class Platform (W : Type) : Type := {
  call_get_transcript : string -> W -> ending (list fragment) * W;
  call_generate_content : string -> string -> W -> ending response * W
}.

#[global] Instance services_platform {W : Type} `{!Services W} : Platform W := {|
  call_get_transcript := fun video_id w =>
    match get_transcript video_id w with (r, w') => (ends r, w') end;
  call_generate_content := fun model_name prompt w =>
    match generate_content model_name prompt w with (r, w') => (ends r, w') end
|}.

Record session (W : Type) : Type := { world : W; log : list event }.
Arguments world {W} s.
Arguments log {W} s.

(** What the user did on the page before this run of the script. *)
Record user_input : Type := { link_text : string; notes_clicked : bool }.

(** ** The monad of the script: state, log and exceptions *)

Definition M (W A : Type) : Type := session W -> ending A * session W.

Definition ret {W A} (a : A) : M W A := fun s => (Returns a, s).

Definition bind {W A B} (m : M W A) (f : A -> M W B) : M W B :=
  fun s =>
    match m s with
    | (Returns a, s') => f a s'
    | (Raises x, s') => (Raises x, s')
    end.

Definition lift {W A} (r : outcome A) : M W A := fun s => (ends r, s).

Definition emit {W} (e : event) : M W unit :=
  fun s => (Returns tt, {| world := world s; log := log s ++ [e] |}).

(** [try: body except Exception as e: handler e]: the handler gets the
    instances of [Exception]; any other exception leaves the statement. *)
Definition try_except {W A} (body : M W A) (handler : exn -> M W A) : M W A :=
  fun s =>
    match body s with
    | (Returns a, s') => (Returns a, s')
    | (Raises (Error e), s') => handler e s'
    | (Raises (NotAnError b), s') => (Raises (NotAnError b), s')
    end.

(** [with st.spinner(text): body]. *)
Definition with_spinner {W A} (text : string) (body : M W A) : M W A :=
  fun s =>
    match bind (emit (St_spinner_enter text)) (fun _ => body) s with
    | (r, s') => (r, {| world := world s'; log := log s' ++ [St_spinner_exit] |})
    end.

Declare Scope py_scope.
Delimit Scope py_scope with py.
Notation "x <- m ;; k" := (bind m (fun x => k))
  (at level 100, m at next level, right associativity) : py_scope.
Notation "m ;; k" := (bind m (fun _ => k))
  (at level 100, right associativity) : py_scope.

(** [if x: then_ else: else_], with [x] a [str] or [None]. *)
Definition if_truthy {W A} (x : option string)
    (then_ : string -> M W A) (else_ : M W A) : M W A :=
  match x with
  | Some s => if Str.truthy s then then_ s else else_
  | None => else_
  end.

(** [for i in l: acc = body acc i]. *)
Fixpoint for_each {W A B} (l : list A) (acc : B) (body : B -> A -> M W B) : M W B :=
  match l with
  | [] => ret acc
  | i :: l' => bind (body acc i) (fun acc' => for_each l' acc' body)
  end.

(** ** The script *)

Definition system_prompt : string :=
  "
You are an advanced AI Content Strategist and Professional Note-Taker. Your task is to analyze the following YouTube video transcript and generate a comprehensive, "
  +:+ dq +:+ "University-Level"
  +:+ dq +:+ " study guide. 

The goal is that a reader must fully understand the specific value, technical details, and core message of the video WITHOUT needing to watch it.

Please structure your response exactly as follows:

1.  **EXECUTIVE SUMMARY (TL;DR):**
    * Provide a 3-5 sentence high-level overview of the video's main topic and purpose.

2.  **CORE CONCEPTS & KEY TAKEAWAYS:**
    * List the 5-7 most critical points discussed.
    * Use bullet points.
    * *Crucial:* Do not be vague. Instead of saying "
  +:+ dq +:+ "The speaker discussed tools,"
  +:+ dq +:+ " say "
  +:+ dq +:+ "The speaker recommended tools like X, Y, and Z for specific tasks."
  +:+ dq +:+ "

3.  **DETAILED BREAKDOWN:**
    * Divide the video content into logical sections (e.g., "
  +:+ dq +:+ "Step 1,"
  +:+ dq +:+ " "
  +:+ dq +:+ "The Problem,"
  +:+ dq +:+ " "
  +:+ dq +:+ "The Solution"
  +:+ dq +:+ ").
    * Elaborate on the arguments, tutorials, or stories shared in the transcript.
    * Include specific numbers, dates, code snippets (if technical), or quotes if they are pivotal.

4.  **ACTIONABLE INSIGHTS / CONCLUSION:**
    * What should the viewer do with this information?
    * Summarize the final verdict or closing thoughts.

TRANSCRIPT DATA:
".

Section Script.

Context {W : Type} `{!Platform W}.
Local Open Scope py_scope.

Definition YouTubeTranscriptApi_get_transcript (video_id : string)
    : M W (list fragment) :=
  fun s =>
    match call_get_transcript video_id (world s) with
    | (r, w') => (r, {| world := w'; log := log s ++ [Call_get_transcript video_id] |})
    end.

Definition model_generate_content (model_name prompt : string) : M W response :=
  fun s =>
    match call_generate_content model_name prompt (world s) with
    | (r, w') =>
        (r, {| world := w'; log := log s ++ [Call_generate_content model_name prompt] |})
    end.

(** Lines 61-68, the body of the [try] of [extract_transcript_details]. *)
Definition transcript_try (video_id : string) : M W (option string) :=
  transcript_text <- YouTubeTranscriptApi_get_transcript video_id ;;
  transcript <- for_each transcript_text ""
    (fun transcript i =>
       v <- lift (getitem i "text") ;;
       piece <- lift (str_add " " v) ;;
       ret (transcript +:+ piece)) ;;
  ret (Some transcript).

Definition extract_transcript_details (video_id : string) : M W (option string) :=
  try_except (transcript_try video_id)
    (fun e =>
       match e with
       | TranscriptsDisabled _ =>
           emit (St_error "Subtitles are disabled for this video.") ;;
           ret None
       | NoTranscriptFound _ =>
           emit (St_error "No transcript found for this video language.") ;;
           ret None
       | _ =>
           emit (St_error ("Error extracting transcript: " +:+ exn_str e)) ;;
           ret None
       end).

(** Lines 85-89, the body of the [try] of [generate_gemini_content].  The
    model object is represented by the name it was built with. *)
Definition generate_try (transcript_text prompt : string) : M W (option string) :=
  let model := "gemini-pro" in
  let full_prompt := prompt +:+ transcript_text in
  response <- model_generate_content model full_prompt ;;
  summary <- lift (text response) ;;
  ret (Some summary).

Definition generate_gemini_content (transcript_text prompt : string)
    : M W (option string) :=
  try_except (generate_try transcript_text prompt)
    (fun e =>
       emit (St_error ("Error generating summary: " +:+ exn_str e)) ;;
       ret None).

Definition st_text_input (u : user_input) (label : string) : M W string :=
  emit (St_text_input label) ;; ret (link_text u).

Definition st_button (u : user_input) (label : string) : M W bool :=
  emit (St_button label) ;; ret (notes_clicked u).

Definition page_header : M W unit :=
  emit (St_set_page_config "Smart Video Notes" "📝" "wide") ;;
  emit (St_title "📝 AI Professional Video Summarizer") ;;
  emit (St_markdown
          "Transform YouTube videos into comprehensive, structured study notes.").

(** Lines 104-111: the thumbnail, or the warning about the link. *)
Definition link_section (youtube_link : string) : M W unit :=
  if Str.truthy youtube_link then
    if_truthy (get_video_id youtube_link)
      (fun video_id =>
         emit (St_image ("http://img.youtube.com/vi/" +:+ video_id +:+ "/0.jpg")
                        false 500))
      (emit (St_warning "Please enter a valid YouTube URL."))
  else ret tt.

(** Lines 123-132: the steps that run under the spinner. *)
Definition pipeline (video_id : string) : M W unit :=
  transcript_text <- extract_transcript_details video_id ;;
  if_truthy transcript_text
    (fun transcript_text =>
       summary <- generate_gemini_content transcript_text system_prompt ;;
       if_truthy summary
         (fun summary =>
            emit (St_markdown "---") ;;
            emit (St_subheader "Here are your detailed notes:") ;;
            emit (St_markdown summary))
         (ret tt))
    (ret tt).

(** Lines 114-132: what the button triggers. *)
Definition button_section (youtube_link : string) (clicked : bool) : M W unit :=
  if clicked then
    if negb (Str.truthy youtube_link) then
      emit (St_warning "Please enter a YouTube link first.")
    else
      if_truthy (get_video_id youtube_link)
        (fun video_id =>
           with_spinner
             "Extracting transcript and generating professional notes... This may take a moment."
             (pipeline video_id))
        (ret tt)
  else ret tt.

(** One run of the script, which Streamlit starts at every interaction. *)
Definition app (u : user_input) : M W unit :=
  page_header ;;
  youtube_link <- st_text_input u "Enter YouTube Video Link:" ;;
  link_section youtube_link ;;
  clicked <- st_button u "Generate Detailed Notes" ;;
  button_section youtube_link clicked.

End Script.

(** ** A world for examples

    Services that give the same two replies whatever they are asked, and count
    the calls they get. *)

Record canned : Type := {
  transcript_reply : outcome (list fragment);
  generate_reply : outcome response;
  calls_served : nat
}.

Definition served (w : canned) : canned :=
  {| transcript_reply := transcript_reply w;
     generate_reply := generate_reply w;
     calls_served := S (calls_served w) |}.

#[global] Instance canned_services : Services canned := {|
  get_transcript := fun _ w => (transcript_reply w, served w);
  generate_content := fun _ _ w => (generate_reply w, served w)
|}.

Definition fresh {W} (w : W) : session W := {| world := w; log := [] |}.

(** The captions [[{"text":"Hello"},{"text":"world"}]]. *)
Definition hello_world : list fragment :=
  [ {[ "text" := PyStr "Hello" ]}; {[ "text" := PyStr "world" ]} ].

(** Captions are served, and the model answers [answer]. *)
Definition answering (answer : string) : canned :=
  {| transcript_reply := Ok hello_world;
     generate_reply := Ok {| text := Ok answer |};
     calls_served := 0 |}.

(** The transcript service raises [e]. *)
Definition refusing (e : exn) : canned :=
  {| transcript_reply := Raise e;
     generate_reply := Ok {| text := Ok "notes" |};
     calls_served := 0 |}.

(** A link is entered and the button is pressed. *)
Definition pressed : user_input :=
  {| link_text := "https://www.youtube.com/watch?v=dQw4w9WgXcQ"; notes_clicked := true |}.

(** The video has no captions at all. *)
Definition silent : canned :=
  {| transcript_reply := Ok [];
     generate_reply := Ok {| text := Ok "notes" |};
     calls_served := 0 |}.

(** The transcript service returns [frags]; the model answers [notes]. *)
Definition serving (frags : list fragment) : canned :=
  {| transcript_reply := Ok frags;
     generate_reply := Ok {| text := Ok "notes" |};
     calls_served := 0 |}.

(** Captions are served, and the call to the model ends as [r]. *)
Definition model_replying (r : outcome response) : canned :=
  {| transcript_reply := Ok hello_world;
     generate_reply := r;
     calls_served := 0 |}.

(** A platform for an example: the call to the transcript service is running
    when the interpreter raises [KeyboardInterrupt]. *)
Definition interrupted : Platform unit := {|
  call_get_transcript := fun _ w => (Raises (NotAnError KeyboardInterrupt), w);
  call_generate_content := fun _ _ w => (Returns {| text := Ok "notes" |}, w)
|}.

(** A link is entered and the button is not pressed. *)
Definition typed : user_input :=
  {| link_text := "https://youtu.be/dQw4w9WgXcQ"; notes_clicked := false |}.

(** ** Vocabulary of the specification *)

(** "Letters, digits, [-], [_]", by character code. *)
Definition id_char (c : ascii) : bool :=
  let n := N_of_ascii c in
  ((48 <=? n) && (n <=? 57) || (65 <=? n) && (n <=? 90) || (97 <=? n) && (n <=? 122)
   || (n =? 45) || (n =? 95))%N.

(** An identifier: exactly 11 such characters. *)
Definition is_video_id (ident : string) : bool :=
  Nat.eqb (String.length ident) 11 && Str.all id_char ident.

(** [url] holds, right after [pre], the text [v=] or [/] followed by the
    identifier [ident]. *)
Definition occurs_at (url pre ident : string) : Prop :=
  exists sep post,
    url = pre +:+ sep +:+ ident +:+ post /\
    (sep = "v=" \/ sep = "/") /\
    is_video_id ident = true.

(** The session [s] once the services have moved to [w'] and [evs] was added
    to the log; and: [m], started in [s], ends with [r] in [after s w' evs]. *)
Definition after {W} (s : session W) (w' : W) (evs : list event) : session W :=
  {| world := w'; log := log s ++ evs |}.

Definition runs {W A} (m : M W A) (s : session W) (r : outcome A) (w' : W)
    (evs : list event) : Prop :=
  m s = (ends r, after s w' evs).

Definition is_call (e : event) : bool :=
  match e with
  | Call_get_transcript _ | Call_generate_content _ _ => true
  | _ => false
  end.

(** The elements that stay on the page: every Streamlit call but the spinner,
    which is gone when its block ends. *)
Definition draws (e : event) : bool :=
  match e with
  | Call_get_transcript _ | Call_generate_content _ _
  | St_spinner_enter _ | St_spinner_exit => false
  | _ => true
  end.

(** The last element drawn. *)
Definition final_rendered (evs : list event) : option event :=
  last (filter (fun e => draws e = true) evs).

(** The texts, each one after a single space: a leading space, then the texts
    with single spaces between them. *)
Definition spaced (texts : list string) : string :=
  match texts with
  | [] => ""
  | _ => " " +:+ String.concat " " texts
  end.

(** The fragment [f] carries the text [t]. *)
Definition has_text (f : fragment) (t : string) : Prop := f !! "text" = Some (PyStr t).

(** What the script draws before it looks at the link. *)
Definition page_top : list event :=
  [St_set_page_config "Smart Video Notes" "📝" "wide";
   St_title "📝 AI Professional Video Summarizer";
   St_markdown "Transform YouTube videos into comprehensive, structured study notes.";
   St_text_input "Enter YouTube Video Link:"].

(** What a run that gets as far as the spinner has drawn by then, for the
    identifier [video_id]. *)
Definition page_to_spinner (video_id : string) : list event :=
  page_top ++
  [St_image ("http://img.youtube.com/vi/" +:+ video_id +:+ "/0.jpg") false 500;
   St_button "Generate Detailed Notes";
   St_spinner_enter
     "Extracting transcript and generating professional notes... This may take a moment."].

(** The five ways the steps under the spinner can go, by what the fetcher
    returned and what they add to the log: the fetcher reported an error; the
    transcript was empty; the generator reported an error; the answer was
    empty; the notes were drawn. *)
Inductive pipeline_log (video_id : string) : option string -> list event -> Prop :=
| fetch_failed (msg : string) :
    pipeline_log video_id None [Call_get_transcript video_id; St_error msg]
| no_captions :
    pipeline_log video_id (Some "") [Call_get_transcript video_id]
| generation_failed (transcript msg : string) :
    Str.truthy transcript = true ->
    pipeline_log video_id (Some transcript)
      [Call_get_transcript video_id;
       Call_generate_content "gemini-pro" (system_prompt +:+ transcript);
       St_error msg]
| no_answer (transcript : string) :
    Str.truthy transcript = true ->
    pipeline_log video_id (Some transcript)
      [Call_get_transcript video_id;
       Call_generate_content "gemini-pro" (system_prompt +:+ transcript)]
| notes_shown (transcript summary : string) :
    Str.truthy transcript = true ->
    Str.truthy summary = true ->
    pipeline_log video_id (Some transcript)
      [Call_get_transcript video_id;
       Call_generate_content "gemini-pro" (system_prompt +:+ transcript);
       St_markdown "---";
       St_subheader "Here are your detailed notes:";
       St_markdown summary].

(** The four ways a run of the script can go, by what it adds to the log: no
    link; a link without identifier; a link with an identifier and the button
    not pressed; a link with an identifier and the button pressed. *)
Inductive app_log (u : user_input) : list event -> Prop :=
| no_link :
    link_text u = "" ->
    app_log u
      (page_top ++ St_button "Generate Detailed Notes" ::
       if notes_clicked u then [St_warning "Please enter a YouTube link first."] else [])
| bad_link :
    Str.truthy (link_text u) = true ->
    get_video_id (link_text u) = None ->
    app_log u
      (page_top ++
       [St_warning "Please enter a valid YouTube URL."; St_button "Generate Detailed Notes"])
| link_entered (video_id : string) :
    get_video_id (link_text u) = Some video_id ->
    notes_clicked u = false ->
    app_log u
      (page_top ++
       [St_image ("http://img.youtube.com/vi/" +:+ video_id +:+ "/0.jpg") false 500;
        St_button "Generate Detailed Notes"])
| processed (video_id : string) (fetched : option string) (inner : list event) :
    get_video_id (link_text u) = Some video_id ->
    notes_clicked u = true ->
    pipeline_log video_id fetched inner ->
    app_log u (page_to_spinner video_id ++ inner ++ [St_spinner_exit]).

(** Whether [s] begins with [v=] or [/] followed by an identifier. *)
Definition id_here (s : string) : bool :=
  match s with
  | String c rest =>
      if Ascii.eqb c "/" then is_video_id (Str.take 11 rest)
      else if Ascii.eqb c "v" then
        match rest with
        | String d rest' => Ascii.eqb d "=" && is_video_id (Str.take 11 rest')
        | EmptyString => false
        end
      else false
  | EmptyString => false
  end.

(** Whether no such text begins at any of the first [n] positions of [s]. *)
Fixpoint none_before (n : nat) (s : string) : bool :=
  match n, s with
  | S n', String _ s' => negb (id_here s) && none_before n' s'
  | _, _ => true
  end.

(** ** Facts on strings *)

Lemma append_nil (b : string) : "" +:+ b = b.
Proof. reflexivity. Qed.

Lemma append_cons (x : ascii) (a b : string) : String x a +:+ b = String x (a +:+ b).
Proof. reflexivity. Qed.

Lemma append_empty_r (a : string) : a +:+ "" = a.
Proof.
  induction a as [|c a IH]; [reflexivity|].
  rewrite append_cons. now rewrite IH.
Qed.

Lemma length_append (a b : string) :
  String.length (a +:+ b) = String.length a + String.length b.
Proof.
  induction a as [|c a IH]; [reflexivity|].
  rewrite append_cons. simpl. now rewrite IH.
Qed.

Lemma append_assoc (a b c : string) : (a +:+ b) +:+ c = a +:+ b +:+ c.
Proof.
  induction a as [|x a IH]; [reflexivity|].
  rewrite !append_cons. now rewrite IH.
Qed.

Lemma take_append (a b : string) : Str.take (String.length a) (a +:+ b) = a.
Proof.
  induction a as [|x a IH]; [now destruct b|].
  rewrite append_cons. simpl. now rewrite IH.
Qed.

Lemma append_inv_length (a a' b b' : string) :
  a +:+ b = a' +:+ b' -> String.length a = String.length a' -> a = a' /\ b = b'.
Proof.
  revert a'. induction a as [|x a IH]; intros [|x' a'] E L;
    rewrite ?append_cons, ?append_nil in E; simpl in L; try discriminate.
  - now split.
  - injection E as -> E. injection L as L. destruct (IH _ E L) as [-> ->]. now split.
Qed.

Lemma spaced_foldr (texts : list string) :
  foldr (fun t r => " " +:+ t +:+ r) "" texts = spaced texts.
Proof.
  induction texts as [|t ts IH]; [reflexivity|].
  cbn [foldr]. rewrite IH. unfold spaced. destruct ts as [|t' ts]; cbn [String.concat].
  - now rewrite append_empty_r.
  - reflexivity.
Qed.

Lemma truthy_length (s : string) : Str.truthy s = true <-> 0 < String.length s.
Proof. destruct s; simpl; split; intros; try lia; congruence. Qed.

(** ** The matcher on the pattern of [get_video_id] *)

Lemma in_class_id_char (c : ascii) : Re.in_class id_class c = id_char c.
Proof. destruct c as [[] [] [] [] [] [] [] []]; vm_compute; reflexivity. Qed.

Lemma all_in_class_id (s : string) :
  Str.all (Re.in_class id_class) s = Str.all id_char s.
Proof.
  induction s as [|c s IH]; [reflexivity|].
  cbn [Str.all]. now rewrite in_class_id_char, IH.
Qed.

Lemma repeat_class_intro (items : list Re.class_item) (a rest : string) (g : Re.Match)
    (k : string -> Re.Match -> option Re.Match) :
  Str.all (Re.in_class items) a = true ->
  Re.repeat (Re.one (Re.in_class items)) (String.length a) (a +:+ rest) g k = k rest g.
Proof.
  induction a as [|c a IH]; intros H; [reflexivity|].
  simpl in H. apply andb_true_iff in H as [Hc Ha].
  rewrite append_cons. simpl. unfold Re.one. rewrite Hc. now apply IH.
Qed.

Lemma repeat_class_inv (items : list Re.class_item) (n : nat) (s : string) (g : Re.Match)
    (k : string -> Re.Match -> option Re.Match) (m : Re.Match) :
  Re.repeat (Re.one (Re.in_class items)) n s g k = Some m ->
  exists a rest,
    s = a +:+ rest /\ String.length a = n /\
    Str.all (Re.in_class items) a = true /\ k rest g = Some m.
Proof.
  revert s. induction n as [|n IH]; simpl; intros s H.
  - exists "", s. auto.
  - unfold Re.one in H. destruct s as [|c s]; [discriminate|].
    destruct (Re.in_class items c) eqn:Hc; [|discriminate].
    destruct (IH _ H) as (a & rest & -> & <- & Ha & Hk).
    exists (String c a), rest. rewrite append_cons. simpl. rewrite Hc, Ha. auto.
Qed.

(** The trailing [.*] never fails when what follows cannot fail, and it keeps
    every property of the result that what follows ensures. *)
Lemma star_dot_total (P : Re.Match -> Prop) (g : Re.Match)
    (k : string -> Re.Match -> option Re.Match) :
  (forall s', exists m, k s' g = Some m /\ P m) ->
  forall fuel s, exists m, Re.star (Re.rmatch Re.Dot) fuel s g k = Some m /\ P m.
Proof.
  intros Hk. induction fuel as [|fuel IH]; intros s; simpl; [apply Hk|].
  unfold Re.one. destruct s as [|c s]; [apply Hk|].
  destruct (Re.dot_char c); [|apply Hk].
  simpl. destruct (decide (String.length s < S (String.length s))) as [_|]; [|lia].
  destruct (IH s) as (m & E & Hm). exists m. split; [|exact Hm].
  change (match Re.star (Re.rmatch Re.Dot) fuel s g k with
          | Some m0 => Some m0
          | None => k (String c s) g
          end = Some m).
  now rewrite E.
Qed.

(** The two halves of the pattern: [(?:v=|\/)] and [([0-9A-Za-z_-]{11}).*]. *)
Lemma match_here_pattern (s : string) :
  Re.match_here pattern s =
  Re.rmatch (Re.Alt (Re.Seq (Re.Lit "v") (Re.Lit "=")) (Re.Lit "/")) s ∅
    (fun s1 g1 =>
       Re.rmatch (Re.Seq (Re.Group 1 (Re.Repeat 11 (Re.Class id_class))) (Re.Star Re.Dot))
         s1 g1
         (fun s2 g2 => Some (<[0 := Str.take (String.length s - String.length s2) s]> g2))).
Proof. reflexivity. Qed.

Lemma separator_intro (sep rest : string) (g : Re.Match)
    (k : string -> Re.Match -> option Re.Match) (m : Re.Match) :
  sep = "v=" \/ sep = "/" ->
  k rest g = Some m ->
  Re.rmatch (Re.Alt (Re.Seq (Re.Lit "v") (Re.Lit "=")) (Re.Lit "/")) (sep +:+ rest) g k
  = Some m.
Proof.
  intros [-> | ->] Hk.
  - change (match k rest g with Some m0 => Some m0 | None => None end = Some m).
    now rewrite Hk.
  - exact Hk.
Qed.

Lemma separator_inv (s : string) (g : Re.Match)
    (k : string -> Re.Match -> option Re.Match) (m : Re.Match) :
  Re.rmatch (Re.Alt (Re.Seq (Re.Lit "v") (Re.Lit "=")) (Re.Lit "/")) s g k = Some m ->
  exists sep rest, s = sep +:+ rest /\ (sep = "v=" \/ sep = "/") /\ k rest g = Some m.
Proof.
  simpl. unfold Re.one. destruct s as [|c s]; [discriminate|].
  destruct (Ascii.eqb c "v") eqn:Ev.
  - apply Ascii.eqb_eq in Ev as ->.
    destruct s as [|d s]; [discriminate|].
    destruct (Ascii.eqb d "=") eqn:Ee; [|discriminate].
    apply Ascii.eqb_eq in Ee as ->.
    destruct (k s g) as [m0|] eqn:Hk; [|discriminate].
    intros [= <-]. exists "v=", s. auto.
  - destruct (Ascii.eqb c "/") eqn:Es; [|discriminate].
    apply Ascii.eqb_eq in Es as ->.
    intros Hk. exists "/", s. auto.
Qed.

Lemma identifier_intro (ident post : string) (g : Re.Match) (w : string -> string) :
  is_video_id ident = true ->
  exists m,
    Re.rmatch (Re.Seq (Re.Group 1 (Re.Repeat 11 (Re.Class id_class))) (Re.Star Re.Dot))
      (ident +:+ post) g (fun s2 g2 => Some (<[0 := w s2]> g2)) = Some m /\
    Re.group m 1 = Some ident.
Proof.
  intros H. apply andb_true_iff in H as [Hlen Hall].
  apply Nat.eqb_eq in Hlen.
  assert (Hcls : Str.all (Re.in_class id_class) ident = true)
    by now rewrite all_in_class_id.
  cbn [Re.rmatch]. rewrite <- Hlen, repeat_class_intro by exact Hcls.
  rewrite length_append, Nat.add_sub, take_append.
  apply star_dot_total. intros s'. eexists. split; [reflexivity|].
  unfold Re.group. now rewrite lookup_insert_ne, lookup_insert_eq.
Qed.

Lemma identifier_inv (s : string) (g : Re.Match) (w : string -> string) (m : Re.Match) :
  Re.rmatch (Re.Seq (Re.Group 1 (Re.Repeat 11 (Re.Class id_class))) (Re.Star Re.Dot))
    s g (fun s2 g2 => Some (<[0 := w s2]> g2)) = Some m ->
  exists ident post,
    s = ident +:+ post /\ is_video_id ident = true /\ Re.group m 1 = Some ident.
Proof.
  intros H. cbn [Re.rmatch] in H.
  apply repeat_class_inv in H as (ident & post & -> & Hlen & Hcls & Hk).
  assert (Hid : is_video_id ident = true).
  { unfold is_video_id. now rewrite Hlen, <- all_in_class_id, Hcls. }
  exists ident, post. split; [reflexivity|]. split; [exact Hid|].
  destruct (identifier_intro ident post g w Hid) as (m' & E & Hm').
  cbn [Re.rmatch] in E. rewrite <- Hlen in E.
  rewrite repeat_class_intro in E by exact Hcls.
  cbn beta in Hk, E. congruence.
Qed.

Lemma match_here_intro (s ident : string) :
  occurs_at s "" ident ->
  exists m, Re.match_here pattern s = Some m /\ Re.group m 1 = Some ident.
Proof.
  intros (sep & post & -> & Hsep & Hid).
  rewrite match_here_pattern, append_nil.
  destruct (identifier_intro ident post ∅
              (fun s2 => Str.take (String.length (sep +:+ ident +:+ post) - String.length s2)
                           (sep +:+ ident +:+ post)) Hid) as (m & E & Hm).
  exists m. split; [|exact Hm]. now apply separator_intro.
Qed.

Lemma match_here_inv (s : string) (m : Re.Match) :
  Re.match_here pattern s = Some m ->
  exists ident, occurs_at s "" ident /\ Re.group m 1 = Some ident.
Proof.
  rewrite match_here_pattern. intros H.
  apply separator_inv in H as (sep & rest & -> & Hsep & H).
  apply identifier_inv in H as (ident & post & -> & Hid & Hm).
  exists ident. split; [|exact Hm]. exists sep, post. auto.
Qed.

Lemma occurs_at_cons (c : ascii) (s pre ident : string) :
  occurs_at s pre ident -> occurs_at (String c s) (String c pre) ident.
Proof. intros (sep & post & -> & H). exists sep, post. now rewrite append_cons. Qed.

Lemma occurs_at_uncons (c : ascii) (s pre ident : string) :
  occurs_at (String c s) pre ident ->
  pre = "" \/ exists pre', pre = String c pre' /\ occurs_at s pre' ident.
Proof.
  intros (sep & post & E & H). destruct pre as [|x pre]; [now left|right].
  rewrite append_cons in E. injection E as <- ->.
  exists pre. split; [reflexivity|]. now exists sep, post.
Qed.

Lemma occurs_at_empty (pre ident : string) : ~ occurs_at "" pre ident.
Proof.
  intros (sep & post & E & [-> | ->] & _); destruct pre; discriminate.
Qed.

(** [re.search] finds the leftmost place where the pattern matches. *)
Lemma search_some (s : string) (m : Re.Match) :
  Re.search pattern s = Some m ->
  exists pre ident,
    occurs_at s pre ident /\ Re.group m 1 = Some ident /\
    forall pre' ident', occurs_at s pre' ident' -> String.length pre <= String.length pre'.
Proof.
  induction s as [|c s IH]; cbn [Re.search].
  - destruct (Re.match_here pattern "") as [m0|] eqn:E; [|discriminate].
    apply match_here_inv in E as (ident & H & _). now apply occurs_at_empty in H.
  - destruct (Re.match_here pattern (String c s)) as [m0|] eqn:E.
    + intros [= <-]. apply match_here_inv in E as (ident & H & Hm).
      exists "", ident. repeat split; auto. intros; simpl; lia.
    + intros H. destruct (IH H) as (pre & ident & Hocc & Hm & Hmin).
      exists (String c pre), ident. repeat split; auto using occurs_at_cons.
      intros pre' ident' H'.
      destruct (occurs_at_uncons _ _ _ _ H') as [-> | (p & -> & Hp)].
      * destruct (match_here_intro _ _ H') as (m' & E' & _). congruence.
      * simpl. apply Hmin in Hp. lia.
Qed.

Lemma search_none (s : string) :
  Re.search pattern s = None -> forall pre ident, ~ occurs_at s pre ident.
Proof.
  induction s as [|c s IH]; cbn [Re.search]; intros H pre ident Hocc.
  - now apply occurs_at_empty in Hocc.
  - destruct (Re.match_here pattern (String c s)) as [m0|] eqn:E; [discriminate|].
    destruct (occurs_at_uncons _ _ _ _ Hocc) as [-> | (p & -> & Hp)].
    + destruct (match_here_intro _ _ Hocc) as (m' & E' & _). congruence.
    + exact (IH H _ _ Hp).
Qed.

(** At one position there is at most one identifier. *)
Lemma occurs_at_unique (s pre pre' ident ident' : string) :
  occurs_at s pre ident -> occurs_at s pre' ident' ->
  String.length pre = String.length pre' -> ident = ident'.
Proof.
  intros (sep & post & -> & Hsep & Hid) (sep' & post' & E & Hsep' & Hid') L.
  apply append_inv_length in E as [_ E]; [|exact L].
  apply andb_true_iff in Hid as [Hlen _], Hid' as [Hlen' _].
  apply Nat.eqb_eq in Hlen, Hlen'.
  destruct Hsep as [-> | ->], Hsep' as [-> | ->]; try discriminate;
    rewrite ?append_cons, ?append_nil in E; injection E as E;
    apply append_inv_length in E as [E _]; congruence.
Qed.

Lemma id_here_occurs (s : string) :
  id_here s = true -> exists ident, occurs_at s "" ident.
Proof.
  assert (T : forall n r, exists post, r = Str.take n r +:+ post).
  { induction n as [|n IH]; intros r; [now exists r|].
    destruct r as [|x r]; [now exists ""|].
    destruct (IH r) as (post & E). exists post. simpl. rewrite append_cons. now f_equal. }
  destruct s as [|c rest]; [discriminate|]. simpl.
  destruct (Ascii.eqb c "/") eqn:Es.
  - apply Ascii.eqb_eq in Es as ->. intros H. destruct (T 11 rest) as (post & E).
    exists (Str.take 11 rest), "/", post. rewrite append_nil, append_cons, append_nil, <- E. auto.
  - destruct (Ascii.eqb c "v") eqn:Ev; [|discriminate].
    apply Ascii.eqb_eq in Ev as ->. destruct rest as [|d rest]; [discriminate|].
    intros H. apply andb_true_iff in H as [Ed H]. apply Ascii.eqb_eq in Ed as ->.
    destruct (T 11 rest) as (post & E).
    exists (Str.take 11 rest), "v=", post.
    rewrite append_nil, !append_cons, append_nil, <- E. auto.
Qed.

Lemma occurs_id_here (s ident : string) : occurs_at s "" ident -> id_here s = true.
Proof.
  intros (sep & post & -> & Hsep & Hid).
  assert (Ht : Str.take 11 (ident +:+ post) = ident).
  { apply andb_true_iff in Hid as [Hlen _]. apply Nat.eqb_eq in Hlen.
    rewrite <- Hlen. apply take_append. }
  destruct Hsep as [-> | ->].
  - change (true && is_video_id (Str.take 11 (ident +:+ post)) = true).
    now rewrite Ht, Hid.
  - change (is_video_id (Str.take 11 (ident +:+ post)) = true).
    now rewrite Ht, Hid.
Qed.

(** The check [none_before] decides that an occurrence is the leftmost one. *)
Lemma none_before_leftmost (pre rest : string) :
  none_before (String.length pre) (pre +:+ rest) = true ->
  forall pre' ident', occurs_at (pre +:+ rest) pre' ident' ->
    String.length pre <= String.length pre'.
Proof.
  induction pre as [|c pre IH]; intros H pre' ident' Hocc; [simpl; lia|].
  rewrite append_cons in H, Hocc. cbn [none_before String.length] in H.
  apply andb_true_iff in H as [Hhere H].
  destruct (occurs_at_uncons _ _ _ _ Hocc) as [-> | (p & -> & Hp)].
  - apply occurs_id_here in Hocc. rewrite Hocc in Hhere. discriminate.
  - simpl. specialize (IH H _ _ Hp). lia.
Qed.

(** ** The URL parser *)

(** C1, as stated, fails.  The link below holds [/] followed by the 11
    characters [dQw4w9WgXcQ], and [get_video_id] does not return them: the
    pattern already matches at the [/] before the host name, so the parser
    returns [youtube-noc]. *)
Lemma get_video_id_not_every_occurrence :
  occurs_at "https://youtube-nocookie.com/embed/dQw4w9WgXcQ"
            "https://youtube-nocookie.com/embed" "dQw4w9WgXcQ" /\
  get_video_id "https://youtube-nocookie.com/embed/dQw4w9WgXcQ" = Some "youtube-noc".
Proof.
  split; [|vm_compute; reflexivity].
  exists "/", "".
  split; [reflexivity | split; [right; reflexivity | vm_compute; reflexivity]].
Qed.

(** C1, amended: when the input holds [v=] or [/] followed by 11 characters
    drawn from letters, digits, [-] and [_], and no such text begins further
    to the left, [get_video_id] returns exactly those 11 characters. *)
Theorem get_video_id_leftmost (url pre ident : string) :
  occurs_at url pre ident ->
  (forall pre' ident', occurs_at url pre' ident' ->
     String.length pre <= String.length pre') ->
  get_video_id url = Some ident.
Proof.
  intros Hocc Hmin. unfold get_video_id.
  destruct (Re.search pattern url) as [m|] eqn:E.
  - apply search_some in E as (pre0 & ident0 & Hocc0 & Hm & Hmin0).
    rewrite Hm. f_equal. apply (occurs_at_unique url pre0 pre); auto.
    apply Nat.le_antisymm; eauto.
  - exfalso. exact (search_none _ E _ _ Hocc).
Qed.

(** C1, amended, on a watch link: the identifier after [v=] is the leftmost one. *)
Lemma get_video_id_leftmost_witness :
  occurs_at "https://www.youtube.com/watch?v=dQw4w9WgXcQ&t=42s"
            "https://www.youtube.com/watch?" "dQw4w9WgXcQ" /\
  get_video_id "https://www.youtube.com/watch?v=dQw4w9WgXcQ&t=42s" = Some "dQw4w9WgXcQ".
Proof.
  assert (H : occurs_at "https://www.youtube.com/watch?v=dQw4w9WgXcQ&t=42s"
                        "https://www.youtube.com/watch?" "dQw4w9WgXcQ").
  { exists "v=", "&t=42s".
    split; [reflexivity | split; [left; reflexivity | vm_compute; reflexivity]]. }
  split; [exact H|].
  apply (get_video_id_leftmost _ _ _ H).
  apply (none_before_leftmost "https://www.youtube.com/watch?" "v=dQw4w9WgXcQ&t=42s").
  vm_compute. reflexivity.
Defined.

(** C2: [get_video_id] returns [None] on every input that holds no [v=] or
    [/] followed by 11 identifier characters, and on no other input; being a
    total function, it has no other way to fail. *)
Theorem get_video_id_none_iff (url : string) :
  get_video_id url = None <-> ~ (exists pre ident, occurs_at url pre ident).
Proof.
  unfold get_video_id. split.
  - intros H (pre & ident & Hocc).
    destruct (Re.search pattern url) as [m|] eqn:E.
    + apply search_some in E as (pre0 & ident0 & _ & Hm & _). congruence.
    + exact (search_none _ E _ _ Hocc).
  - intros H. destruct (Re.search pattern url) as [m|] eqn:E; [|reflexivity].
    apply search_some in E as (pre0 & ident0 & Hocc & _). exfalso. eauto.
Qed.

(** What the parser returns is always an identifier, so never an empty text. *)
Lemma get_video_id_is_video_id (url ident : string) :
  get_video_id url = Some ident -> is_video_id ident = true.
Proof.
  unfold get_video_id. destruct (Re.search pattern url) as [m|] eqn:E; [|discriminate].
  apply search_some in E as (pre0 & ident0 & (sep & post & _ & _ & Hid) & Hm & _).
  congruence.
Qed.

Lemma is_video_id_truthy (ident : string) :
  is_video_id ident = true -> Str.truthy ident = true.
Proof.
  intros H. apply andb_true_iff in H as [H _]. apply Nat.eqb_eq in H.
  apply truthy_length. lia.
Qed.

(** ** Running the script step by step *)

Section Runs.

Context {W : Type}.
Implicit Types (s : session W) (evs : list event).

Lemma after_nil s : after s (world s) [] = s.
Proof. destruct s; unfold after; simpl. now rewrite app_nil_r. Qed.

Lemma after_after s w1 ev1 w2 ev2 :
  after (after s w1 ev1) w2 ev2 = after s w2 (ev1 ++ ev2).
Proof. unfold after; simpl. now rewrite app_assoc. Qed.

Lemma runs_ret {A} (a : A) s : runs (ret a) s (Ok a) (world s) [].
Proof. unfold runs, ret. now rewrite after_nil. Qed.

Lemma runs_lift {A} (r : outcome A) s : runs (lift r) s r (world s) [].
Proof. unfold runs, lift. now rewrite after_nil. Qed.

Lemma runs_emit (e : event) s : runs (emit e) s (Ok tt) (world s) [e].
Proof. reflexivity. Qed.

(** To reach an end given in full: run with the end left open, then compare. *)
Lemma runs_to {A} (m : M W A) s r w w' evs evs' :
  runs m s r w evs -> w = w' -> evs = evs' -> runs m s r w' evs'.
Proof. now intros H <- <-. Qed.

Lemma runs_bind {A B} (m : M W A) (f : A -> M W B) s a w1 ev1 r w2 ev2 :
  runs m s (Ok a) w1 ev1 ->
  runs (f a) (after s w1 ev1) r w2 ev2 ->
  runs (bind m f) s r w2 (ev1 ++ ev2).
Proof.
  unfold runs, bind. intros H1 H2. rewrite H1. cbn [ends]. rewrite H2.
  now rewrite after_after.
Qed.

Lemma runs_bind_raise {A B} (m : M W A) (f : A -> M W B) s e w1 ev1 :
  runs m s (Raise e) w1 ev1 -> runs (bind m f) s (Raise e) w1 ev1.
Proof. unfold runs, bind. now intros ->. Qed.

Lemma runs_try_ok {A} (body : M W A) (handler : exn -> M W A) s a w1 ev1 :
  runs body s (Ok a) w1 ev1 -> runs (try_except body handler) s (Ok a) w1 ev1.
Proof. unfold runs, try_except. now intros ->. Qed.

Lemma runs_try_raise {A} (body : M W A) (handler : exn -> M W A) s e w1 ev1 r w2 ev2 :
  runs body s (Raise e) w1 ev1 ->
  runs (handler e) (after s w1 ev1) r w2 ev2 ->
  runs (try_except body handler) s r w2 (ev1 ++ ev2).
Proof.
  unfold runs, try_except. intros H1 H2. rewrite H1. cbn [ends]. rewrite H2.
  now rewrite after_after.
Qed.

Lemma runs_with_spinner {A} (text : string) (body : M W A) s r w1 ev1 :
  runs body (after s (world s) [St_spinner_enter text]) r w1 ev1 ->
  runs (with_spinner text body) s r w1 (St_spinner_enter text :: ev1 ++ [St_spinner_exit]).
Proof.
  unfold runs, with_spinner, bind, emit. intros H.
  change {| world := world s; log := log s ++ [St_spinner_enter text] |}
    with (after s (world s) [St_spinner_enter text]).
  rewrite H. unfold after; simpl. now rewrite <- !app_assoc.
Qed.

End Runs.

(** ** The two steps *)

Section Steps.

Context {W : Type} `{!Services W}.
Implicit Types (s : session W) (evs : list event).

Lemma runs_get_transcript (video_id : string) s r w' :
  get_transcript video_id (world s) = (r, w') ->
  runs (YouTubeTranscriptApi_get_transcript video_id) s r w' [Call_get_transcript video_id].
Proof.
  unfold runs, YouTubeTranscriptApi_get_transcript. cbn [call_get_transcript services_platform].
  now intros ->.
Qed.

Lemma runs_generate_content (model_name prompt : string) s r w' :
  generate_content model_name prompt (world s) = (r, w') ->
  runs (model_generate_content model_name prompt) s r w'
       [Call_generate_content model_name prompt].
Proof.
  unfold runs, model_generate_content. cbn [call_generate_content services_platform].
  now intros ->.
Qed.

(** The loop of lines 65-66 on fragments that all carry a text. *)
Lemma for_each_texts (frags : list fragment) (texts : list string) :
  Forall2 has_text frags texts ->
  forall (acc : string) s,
    runs (for_each frags acc
            (fun transcript i =>
               bind (lift (getitem i "text")) (fun v =>
               bind (lift (str_add " " v)) (fun piece =>
               ret (transcript +:+ piece)))))
         s (Ok (acc +:+ foldr (fun t r => " " +:+ t +:+ r) "" texts)) (world s) [].
Proof.
  induction 1 as [|f t frags texts Hf _ IH]; intros acc s; cbn [for_each foldr].
  - rewrite append_empty_r. apply runs_ret.
  - eapply runs_to; [|reflexivity..].
    eapply (runs_bind _ _ _ _ _ [] _ _ []).
    + unfold getitem. rewrite Hf.
      eapply (runs_bind _ _ _ _ _ [] _ _ []); [apply runs_lift|].
      eapply (runs_bind _ _ _ _ _ [] _ _ []); [apply runs_lift|apply runs_ret].
    + simpl. rewrite after_nil, <- !append_assoc. apply IH.
Qed.

Lemma get_video_id_truthy (url ident : string) :
  get_video_id url = Some ident -> Str.truthy url = true /\ Str.truthy ident = true.
Proof.
  intros H. split.
  - destruct url; [discriminate H | reflexivity].
  - eapply is_video_id_truthy, get_video_id_is_video_id, H.
Qed.

Lemma runs_page_top (u : user_input) s :
  runs (bind page_header (fun _ => st_text_input u "Enter YouTube Video Link:"))
       s (Ok (link_text u)) (world s) page_top.
Proof.
  eapply runs_to.
  - eapply runs_bind.
    + unfold page_header.
      eapply runs_bind; [apply runs_emit|].
      eapply runs_bind; [apply runs_emit|apply runs_emit].
    + unfold st_text_input. eapply runs_bind; [apply runs_emit|apply runs_ret].
  - reflexivity.
  - reflexivity.
Qed.

Lemma runs_st_button (u : user_input) (label : string) s :
  runs (st_button u label) s (Ok (notes_clicked u)) (world s) [St_button label].
Proof.
  eapply runs_to.
  - unfold st_button. eapply runs_bind; [apply runs_emit|apply runs_ret].
  - reflexivity.
  - reflexivity.
Qed.

(** The script, with its first two statements taken together. *)
Lemma runs_app (u : user_input) s r w' evs :
  runs (bind (bind page_header (fun _ => st_text_input u "Enter YouTube Video Link:"))
          (fun youtube_link =>
             bind (link_section youtube_link) (fun _ =>
             bind (st_button u "Generate Detailed Notes") (fun clicked =>
             button_section youtube_link clicked)))) s r w' evs ->
  runs (app u) s r w' evs.
Proof.
  unfold runs, app, bind. destruct (page_header s) as [[[]|e] s1]; exact id.
Qed.

(** A run with a link that holds an identifier and with the button pressed:
    the page up to the spinner, the pipeline, and the end of the spinner. *)
Lemma runs_app_pipeline (u : user_input) (video_id : string) s r w' inner :
  get_video_id (link_text u) = Some video_id ->
  notes_clicked u = true ->
  runs (pipeline video_id) (after s (world s) (page_to_spinner video_id)) r w' inner ->
  runs (app u) s r w' (page_to_spinner video_id ++ inner ++ [St_spinner_exit]).
Proof.
  intros Hid Hclick Hpipe. destruct (get_video_id_truthy _ _ Hid) as [Hlink Hvid].
  apply runs_app. eapply runs_to.
  - eapply runs_bind; [apply runs_page_top|].
    eapply runs_bind.
    { unfold link_section. rewrite Hlink, Hid. unfold if_truthy. rewrite Hvid.
      apply runs_emit. }
    eapply runs_bind; [apply runs_st_button|].
    rewrite Hclick. unfold button_section. rewrite Hlink, Hid. unfold if_truthy.
    rewrite Hvid. cbn [negb].
    apply runs_with_spinner.
    rewrite !after_after. exact Hpipe.
  - reflexivity.
  - reflexivity.
Qed.

(** The loop of lines 65-66 on any fragments: it ends, with a text or with an
    exception, and touches neither the services nor the page. *)
Lemma for_each_any (frags : list fragment) (acc : string) s :
  exists r,
    runs (for_each frags acc
            (fun transcript i =>
               bind (lift (getitem i "text")) (fun v =>
               bind (lift (str_add " " v)) (fun piece =>
               ret (transcript +:+ piece)))))
         s r (world s) [].
Proof.
  revert acc. induction frags as [|f frags IH]; intros acc; cbn [for_each].
  - eexists. apply runs_ret.
  - assert (Hbody :
      exists r, runs (bind (lift (getitem f "text")) (fun v =>
                      bind (lift (str_add " " v)) (fun piece =>
                      ret (acc +:+ piece)))) s r (world s) []).
    { unfold getitem. destruct (f !! "text") as [v|].
      - destruct (str_add " " v) as [piece|e] eqn:Hadd.
        + exists (Ok (acc +:+ piece)).
          eapply runs_to; [|reflexivity..].
          eapply (runs_bind _ _ _ _ _ [] _ _ []); [apply runs_lift|].
          cbv beta. rewrite Hadd.
          eapply (runs_bind _ _ _ _ _ [] _ _ []); [apply runs_lift|].
          rewrite !after_nil. apply runs_ret.
        + exists (Raise e).
          eapply runs_to; [|reflexivity..].
          eapply (runs_bind _ _ _ _ _ [] _ _ []); [apply runs_lift|].
          cbv beta. rewrite Hadd, after_nil.
          apply runs_bind_raise, runs_lift.
      - eexists. apply runs_bind_raise, runs_lift. }
    destruct Hbody as [[acc'|e] Hbody].
    + destruct (IH acc') as [r Hr]. exists r.
      eapply runs_to; [eapply runs_bind; [exact Hbody|]|reflexivity..].
      rewrite after_nil. exact Hr.
    + exists (Raise e). apply runs_bind_raise, Hbody.
Qed.

(** The body of the [try] of the fetcher makes one call and draws nothing. *)
Lemma transcript_try_runs (video_id : string) s :
  exists r w',
    runs (transcript_try video_id) s r w' [Call_get_transcript video_id] /\ r <> Ok None.
Proof.
  unfold transcript_try.
  destruct (get_transcript video_id (world s)) as [[frags|e] w'] eqn:Hsvc.
  - destruct (for_each_any frags "" (after s w' [Call_get_transcript video_id]))
      as [[t|e] Ht].
    + exists (Ok (Some t)), w'. split; [|discriminate].
      eapply runs_to;
        [eapply runs_bind;
           [apply runs_get_transcript, Hsvc
           |eapply runs_bind; [exact Ht|apply runs_ret]]
        |reflexivity..].
    + exists (Raise e), w'. split; [|discriminate].
      eapply runs_to;
        [eapply runs_bind;
           [apply runs_get_transcript, Hsvc|apply runs_bind_raise; exact Ht]
        |reflexivity..].
  - exists (Raise e), w'. split; [|discriminate].
    apply runs_bind_raise, runs_get_transcript, Hsvc.
Qed.

(** The body of the [try] of the generator makes one call, with the prompt
    followed by the transcript, and draws nothing. *)
Lemma generate_try_runs (transcript_text prompt : string) s :
  exists r w',
    runs (generate_try transcript_text prompt) s r w'
         [Call_generate_content "gemini-pro" (prompt +:+ transcript_text)].
Proof.
  unfold generate_try. cbv zeta.
  destruct (generate_content "gemini-pro" (prompt +:+ transcript_text) (world s))
    as [[[[x|e]]|e] w'] eqn:Hsvc.
  - exists (Ok (Some x)), w'.
    eapply runs_to;
      [eapply runs_bind;
         [apply runs_generate_content, Hsvc
         |eapply runs_bind; [apply runs_lift|apply runs_ret]]
      |reflexivity..].
  - exists (Raise e), w'.
    eapply runs_to;
      [eapply runs_bind;
         [apply runs_generate_content, Hsvc|apply runs_bind_raise, runs_lift]
      |reflexivity..].
  - exists (Raise e), w'. apply runs_bind_raise, runs_generate_content, Hsvc.
Qed.

(** The fetcher never raises: it returns what its [try] returns, or reports
    the exception of its [try] in one message and returns [None]. *)
Lemma extract_transcript_details_runs (video_id : string) s :
  exists r w' evs,
    runs (extract_transcript_details video_id) s (Ok r) w' evs /\
    ((r <> None /\ evs = [Call_get_transcript video_id]) \/
     (r = None /\ exists msg, evs = [Call_get_transcript video_id; St_error msg])).
Proof.
  destruct (transcript_try_runs video_id s) as (r0 & w' & H0 & Hsome).
  unfold extract_transcript_details. destruct r0 as [t|e].
  - exists t, w', [Call_get_transcript video_id].
    split; [apply runs_try_ok, H0|]. left. split; [congruence|reflexivity].
  - exists None, w'.
    assert (Hh : exists msg,
      runs (match e with
            | TranscriptsDisabled _ =>
                bind (emit (St_error "Subtitles are disabled for this video."))
                     (fun _ => ret None)
            | NoTranscriptFound _ =>
                bind (emit (St_error "No transcript found for this video language."))
                     (fun _ => ret None)
            | _ =>
                bind (emit (St_error ("Error extracting transcript: " +:+ exn_str e)))
                     (fun _ => ret None)
            end) (after s w' [Call_get_transcript video_id])
           (Ok (None : option string)) w' [St_error msg]).
    { destruct e; eexists;
        (eapply runs_to;
           [eapply runs_bind; [apply runs_emit|apply runs_ret]|reflexivity..]). }
    destruct Hh as (msg & Hh).
    exists [Call_get_transcript video_id; St_error msg]. split; [|eauto].
    eapply runs_to; [eapply runs_try_raise; [exact H0|exact Hh]|reflexivity..].
Qed.

(** The same for the generator. *)
Lemma generate_gemini_content_runs (transcript_text prompt : string) s :
  exists r w' evs,
    runs (generate_gemini_content transcript_text prompt) s (Ok r) w' evs /\
    (evs = [Call_generate_content "gemini-pro" (prompt +:+ transcript_text)] \/
     (r = None /\
      exists msg,
        evs = [Call_generate_content "gemini-pro" (prompt +:+ transcript_text);
               St_error msg])).
Proof.
  destruct (generate_try_runs transcript_text prompt s) as (r0 & w' & H0).
  unfold generate_gemini_content. destruct r0 as [t|e].
  - exists t, w', [Call_generate_content "gemini-pro" (prompt +:+ transcript_text)].
    split; [|auto]. apply runs_try_ok, H0.
  - exists None, w',
      [Call_generate_content "gemini-pro" (prompt +:+ transcript_text);
       St_error ("Error generating summary: " +:+ exn_str e)].
    split; [|eauto].
    eapply runs_to;
      [eapply runs_try_raise;
         [exact H0|eapply runs_bind; [apply runs_emit|apply runs_ret]]
      |reflexivity..].
Qed.

(** ** The steps under the spinner *)

Lemma pipeline_stops (video_id : string) s r w1 ev1 :
  runs (extract_transcript_details video_id) s (Ok r) w1 ev1 ->
  truthy r = false ->
  runs (pipeline video_id) s (Ok tt) w1 ev1.
Proof.
  intros Hfetch Hr. unfold pipeline.
  eapply runs_to; [eapply runs_bind; [exact Hfetch|]|reflexivity|apply app_nil_r].
  unfold if_truthy. destruct r as [t|]; [simpl in Hr; rewrite Hr|]; apply runs_ret.
Qed.

Lemma pipeline_generates (video_id transcript : string) s w1 ev1 x w2 ev2 :
  runs (extract_transcript_details video_id) s (Ok (Some transcript)) w1 ev1 ->
  Str.truthy transcript = true ->
  runs (generate_gemini_content transcript system_prompt) (after s w1 ev1) (Ok x) w2 ev2 ->
  runs (pipeline video_id) s (Ok tt) w2
       (ev1 ++ ev2 ++
        if truthy x then
          [St_markdown "---"; St_subheader "Here are your detailed notes:";
           St_markdown (default "" x)]
        else []).
Proof.
  intros Hfetch Ht Hgen. unfold pipeline.
  eapply runs_to; [eapply runs_bind; [exact Hfetch|]|reflexivity..].
  unfold if_truthy at 1. rewrite Ht.
  eapply runs_bind; [exact Hgen|].
  unfold if_truthy. destruct x as [summary|]; cbn [truthy default].
  - destruct (Str.truthy summary).
    + eapply runs_to;
        [eapply runs_bind;
           [apply runs_emit|eapply runs_bind; [apply runs_emit|apply runs_emit]]
        |reflexivity..].
    + apply runs_ret.
  - apply runs_ret.
Qed.

(** The steps under the spinner never raise, and go one of the five ways. *)
Lemma pipeline_runs (video_id : string) s :
  exists fetched w1 ev1 w' evs,
    runs (extract_transcript_details video_id) s (Ok fetched) w1 ev1 /\
    runs (pipeline video_id) s (Ok tt) w' evs /\
    pipeline_log video_id fetched evs.
Proof.
  destruct (extract_transcript_details_runs video_id s) as (r & w1 & ev1 & Hfetch & Hcase).
  exists r, w1, ev1.
  destruct (truthy r) eqn:Hr.
  - destruct r as [t|]; [|discriminate]. simpl in Hr.
    destruct Hcase as [[_ ->]|[? _]]; [|discriminate].
    destruct (generate_gemini_content_runs t system_prompt
                (after s w1 [Call_get_transcript video_id]))
      as (x & w2 & ev2 & Hgen & Hcase).
    exists w2. eexists. split; [exact Hfetch|].
    split; [eapply pipeline_generates; eassumption|].
    destruct Hcase as [->|[-> [msg ->]]].
    + destruct x as [summary|]; cbn [truthy].
      * destruct (Str.truthy summary) eqn:Hs; [now apply notes_shown|now apply no_answer].
      * now apply no_answer.
    + now apply generation_failed.
  - exists w1, ev1. split; [exact Hfetch|].
    split; [eapply pipeline_stops; eassumption|].
    destruct Hcase as [[Hsome ->]|[-> [msg ->]]].
    + destruct r as [[|c t]|]; [apply no_captions|discriminate Hr|congruence].
    + apply fetch_failed.
Qed.

(** ** The whole script *)

(** A run of the script never raises, and goes one of the four ways. *)
Lemma app_runs (u : user_input) s :
  exists w' evs, runs (app u) s (Ok tt) w' evs /\ app_log u evs.
Proof.
  destruct (get_video_id (link_text u)) as [video_id|] eqn:Hid.
  - destruct (get_video_id_truthy _ _ Hid) as [Hlink Hvid].
    destruct (notes_clicked u) eqn:Hclick.
    + destruct (pipeline_runs video_id (after s (world s) (page_to_spinner video_id)))
        as (fetched & _ & _ & w' & inner & _ & Hpipe & Hlog).
      exists w'. eexists.
      split; [exact (runs_app_pipeline u video_id s _ w' inner Hid Hclick Hpipe)|].
      now apply (processed u video_id fetched).
    + exists (world s). eexists. split; [|now apply (link_entered u video_id)].
      apply runs_app.
      eapply runs_to;
        [eapply runs_bind; [apply runs_page_top|];
         eapply runs_bind;
           [unfold link_section, if_truthy; rewrite Hlink, Hid, Hvid; apply runs_emit|];
         eapply runs_bind; [apply runs_st_button|];
         rewrite Hclick; apply runs_ret
        |reflexivity..].
  - destruct (Str.truthy (link_text u)) eqn:Hlink.
    + exists (world s). eexists. split; [|now apply bad_link].
      apply runs_app.
      eapply runs_to;
        [eapply runs_bind; [apply runs_page_top|];
         eapply runs_bind;
           [unfold link_section, if_truthy; rewrite Hlink, Hid; apply runs_emit|];
         eapply runs_bind; [apply runs_st_button|];
         unfold button_section, if_truthy; rewrite Hlink, Hid;
         destruct (notes_clicked u); apply runs_ret
        |reflexivity..].
    + assert (Hempty : link_text u = "") by (destruct (link_text u); [reflexivity|discriminate]).
      pose proof (no_link u Hempty) as Hlog.
      exists (world s). eexists. split; [|exact Hlog].
      apply runs_app. destruct (notes_clicked u) eqn:Hclick.
      * eapply runs_to;
          [eapply runs_bind; [apply runs_page_top|];
           eapply runs_bind; [unfold link_section; rewrite Hlink; apply runs_ret|];
           eapply runs_bind; [apply runs_st_button|];
           unfold button_section; rewrite Hlink, Hclick; apply runs_emit
          |reflexivity..].
      * eapply runs_to;
          [eapply runs_bind; [apply runs_page_top|];
           eapply runs_bind; [unfold link_section; rewrite Hlink; apply runs_ret|];
           eapply runs_bind; [apply runs_st_button|];
           unfold button_section; rewrite Hclick; apply runs_ret
          |reflexivity..].
Qed.

End Steps.






(** ** The claims on the fetcher, the generator and the pipeline *)

Section Claims.

Context {W : Type} `{!Services W}.
Implicit Types (s : session W) (u : user_input).

(** C3: when the transcript service returns fragments, the fetcher returns
    their texts in the order given, each one after a single space: a leading
    space, then the texts with single spaces between them.  It makes the one
    call and draws nothing. *)
Theorem extract_transcript_details_spaced (video_id : string)
    (frags : list fragment) (texts : list string) s w' :
  get_transcript video_id (world s) = (Ok frags, w') ->
  Forall2 has_text frags texts ->
  runs (extract_transcript_details video_id) s (Ok (Some (spaced texts))) w'
       [Call_get_transcript video_id].
Proof.
  intros Hsvc Htexts. unfold extract_transcript_details. apply runs_try_ok.
  unfold transcript_try. rewrite <- spaced_foldr, <- (append_nil (foldr _ _ _)).
  eapply runs_to;
    [eapply runs_bind;
       [apply runs_get_transcript, Hsvc
       |eapply runs_bind; [apply for_each_texts, Htexts|apply runs_ret]]
    |reflexivity|reflexivity].
Qed.

(** C4: when the transcript service raises [TranscriptsDisabled], the fetcher
    draws the message that subtitles are disabled and returns [None]; the
    steps under the spinner end there; and a run of the script with that
    video and the button pressed makes the one call to the transcript service
    and none to the generative model. *)
Theorem transcripts_disabled_reported (video_id msg : string) s w' :
  get_transcript video_id (world s) = (Raise (TranscriptsDisabled msg), w') ->
  runs (extract_transcript_details video_id) s (Ok None) w'
       [Call_get_transcript video_id; St_error "Subtitles are disabled for this video."] /\
  runs (pipeline video_id) s (Ok tt) w'
       [Call_get_transcript video_id; St_error "Subtitles are disabled for this video."] /\
  forall u,
    get_video_id (link_text u) = Some video_id ->
    notes_clicked u = true ->
    runs (app u) s (Ok tt) w'
         (page_to_spinner video_id ++
          [Call_get_transcript video_id;
           St_error "Subtitles are disabled for this video.";
           St_spinner_exit]).
Proof.
  intros Hsvc.
  assert (Hfetch : forall s0, world s0 = world s ->
    runs (extract_transcript_details video_id) s0 (Ok None) w'
         [Call_get_transcript video_id; St_error "Subtitles are disabled for this video."]).
  { intros s0 Hw. unfold extract_transcript_details.
    eapply runs_to;
      [eapply runs_try_raise;
         [unfold transcript_try; apply runs_bind_raise, runs_get_transcript;
          rewrite Hw; exact Hsvc
         |eapply runs_bind; [apply runs_emit|apply runs_ret]]
      |reflexivity..]. }
  split; [now apply Hfetch|].
  split; [apply (pipeline_stops _ _ None); [now apply Hfetch|reflexivity]|].
  intros u Hid Hclick.
  eapply runs_to;
    [eapply (runs_app_pipeline u video_id s (Ok tt) w' _ Hid Hclick),
       (pipeline_stops _ _ None); [now apply Hfetch|reflexivity]
    |reflexivity..].
Qed.

(** C9: when the transcript service returns no fragment at all, the fetcher
    returns the empty text and draws nothing; the steps under the spinner end
    there; and a run of the script with that video and the button pressed
    makes no call to the generative model, draws no notes and no error. *)
Theorem empty_transcript_stops (video_id : string) s w' :
  get_transcript video_id (world s) = (Ok [], w') ->
  runs (extract_transcript_details video_id) s (Ok (Some "")) w'
       [Call_get_transcript video_id] /\
  runs (pipeline video_id) s (Ok tt) w' [Call_get_transcript video_id] /\
  forall u,
    get_video_id (link_text u) = Some video_id ->
    notes_clicked u = true ->
    runs (app u) s (Ok tt) w'
         (page_to_spinner video_id ++ [Call_get_transcript video_id; St_spinner_exit]).
Proof.
  intros Hsvc.
  assert (Hfetch : forall s0, world s0 = world s ->
    runs (extract_transcript_details video_id) s0 (Ok (Some "")) w'
         [Call_get_transcript video_id]).
  { intros s0 Hw. unfold extract_transcript_details. apply runs_try_ok.
    unfold transcript_try.
    eapply runs_to;
      [eapply runs_bind;
         [apply runs_get_transcript; rewrite Hw; exact Hsvc
         |eapply runs_bind; [apply runs_ret|apply runs_ret]]
      |reflexivity..]. }
  split; [now apply Hfetch|].
  split; [apply (pipeline_stops _ _ (Some "")); [now apply Hfetch|reflexivity]|].
  intros u Hid Hclick.
  eapply runs_to;
    [eapply (runs_app_pipeline u video_id s (Ok tt) w' _ Hid Hclick),
       (pipeline_stops _ _ (Some "")); [now apply Hfetch|reflexivity]
    |reflexivity..].
Qed.

(** C6: the generator sends the model the prompt it is given followed by the
    transcript, with nothing between or after, in its one call; and in the
    steps under the spinner every prompt sent is the fixed template
    [system_prompt] followed by the transcript that the fetcher returned. *)
Theorem prompt_is_template_then_transcript (video_id transcript_text prompt : string) s :
  (exists r w' evs,
     runs (generate_gemini_content transcript_text prompt) s (Ok r) w'
          (Call_generate_content "gemini-pro" (prompt +:+ transcript_text) :: evs) /\
     Forall (fun e => is_call e = false) evs) /\
  (exists fetched w1 ev1 w' evs,
     runs (extract_transcript_details video_id) s (Ok fetched) w1 ev1 /\
     runs (pipeline video_id) s (Ok tt) w' evs /\
     forall model_name sent,
       Call_generate_content model_name sent ∈ evs ->
       exists transcript, fetched = Some transcript /\ sent = system_prompt +:+ transcript).
Proof.
  split.
  - destruct (generate_gemini_content_runs transcript_text prompt s)
      as (r & w' & evs & Hrun & Hcase).
    destruct Hcase as [->|[-> [msg ->]]].
    + exists r, w', []. auto.
    + exists None, w', [St_error msg].
      split; [exact Hrun|]. repeat constructor.
  - destruct (pipeline_runs video_id s)
      as (fetched & w1 & ev1 & w' & evs & Hfetch & Hpipe & Hlog).
    exists fetched, w1, ev1, w', evs. split; [exact Hfetch|]. split; [exact Hpipe|].
    intros model_name sent Hin.
    destruct Hlog; set_unfold; destruct_or!; simplify_eq; eauto.
Qed.

(** C7: with an empty link and the button pressed, the script draws its page
    and the warning to enter a link first, and calls neither service. *)
Theorem empty_link_warns s :
  runs (app {| link_text := ""; notes_clicked := true |}) s (Ok tt) (world s)
       (page_top ++
        [St_button "Generate Detailed Notes";
         St_warning "Please enter a YouTube link first."]) /\
  Forall (fun e => is_call e = false)
       (page_top ++
        [St_button "Generate Detailed Notes";
         St_warning "Please enter a YouTube link first."]).
Proof.
  split; [|repeat constructor].
  apply runs_app.
  eapply runs_to;
    [eapply runs_bind; [apply runs_page_top|];
     eapply runs_bind; [apply runs_ret|];
     eapply runs_bind; [apply runs_st_button|];
     apply runs_emit
    |reflexivity..].
Qed.

(** C5, amended: when the link holds an identifier, the button is pressed,
    the fetch succeeds with at least one fragment and the model returns a
    text [X] that is not empty, the last element the script draws is [X] as
    markdown, unmodified. *)
Theorem notes_rendered_unmodified (u : user_input) (video_id : string)
    (frags : list fragment) (texts : list string) (X : string) s w1 w2 :
  get_video_id (link_text u) = Some video_id ->
  notes_clicked u = true ->
  get_transcript video_id (world s) = (Ok frags, w1) ->
  Forall2 has_text frags texts ->
  texts <> [] ->
  generate_content "gemini-pro" (system_prompt +:+ spaced texts) w1
    = (Ok {| text := Ok X |}, w2) ->
  X <> "" ->
  runs (app u) s (Ok tt) w2
       (page_to_spinner video_id ++
        [Call_get_transcript video_id;
         Call_generate_content "gemini-pro" (system_prompt +:+ spaced texts);
         St_markdown "---";
         St_subheader "Here are your detailed notes:";
         St_markdown X;
         St_spinner_exit]) /\
  final_rendered
       (page_to_spinner video_id ++
        [Call_get_transcript video_id;
         Call_generate_content "gemini-pro" (system_prompt +:+ spaced texts);
         St_markdown "---";
         St_subheader "Here are your detailed notes:";
         St_markdown X;
         St_spinner_exit]) = Some (St_markdown X).
Proof.
  intros Hid Hclick Hsvc Htexts Hne Hgen HX. split; [|reflexivity].
  assert (Ht : Str.truthy (spaced texts) = true) by (destruct texts; [congruence|reflexivity]).
  assert (HXt : Str.truthy X = true) by (destruct X; [congruence|reflexivity]).
  eapply runs_to;
    [eapply (runs_app_pipeline u video_id s (Ok tt) w2 _ Hid Hclick),
       (pipeline_generates video_id (spaced texts) _ w1 _ (Some X));
       [eapply runs_try_ok; unfold transcript_try;
        rewrite <- spaced_foldr, <- (append_nil (foldr _ _ _));
        eapply runs_bind;
          [apply runs_get_transcript, Hsvc
          |eapply runs_bind; [apply for_each_texts, Htexts|apply runs_ret]]
       |exact Ht
       |unfold generate_gemini_content; apply runs_try_ok; unfold generate_try; cbv zeta;
        eapply runs_bind;
          [apply runs_generate_content; exact Hgen
          |eapply runs_bind; [apply runs_lift|apply runs_ret]]]
    |reflexivity|].
  cbn [truthy default]. rewrite HXt. reflexivity.
Qed.

(** C10: the script calls a service only when [get_video_id] extracted an
    identifier, of 11 identifier characters, from the link (and the button
    was pressed); and with a link that is not empty and holds no identifier,
    what the button triggers calls nothing and draws nothing. *)
Theorem calls_need_identifier (u : user_input) s :
  (exists w' evs,
     runs (app u) s (Ok tt) w' evs /\
     (Exists (fun e => is_call e = true) evs ->
      exists video_id,
        get_video_id (link_text u) = Some video_id /\
        is_video_id video_id = true /\
        notes_clicked u = true)) /\
  (Str.truthy (link_text u) = true ->
   get_video_id (link_text u) = None ->
   runs (button_section (link_text u) true) s (Ok tt) (world s) []).
Proof.
  split.
  - destruct (app_runs u s) as (w' & evs & Hrun & Hlog).
    exists w', evs. split; [exact Hrun|]. intros Hcall.
    destruct Hlog as [Hempty|Hlink Hnone|video_id Hid Hclick|video_id fetched inner Hid Hclick _].
    + exfalso. destruct (notes_clicked u);
        repeat (apply Exists_cons in Hcall as [Hcall|Hcall]; [discriminate|]);
        inversion Hcall.
    + exfalso.
      repeat (apply Exists_cons in Hcall as [Hcall|Hcall]; [discriminate|]).
      inversion Hcall.
    + exfalso.
      repeat (apply Exists_cons in Hcall as [Hcall|Hcall]; [discriminate|]).
      inversion Hcall.
    + exists video_id. eauto using get_video_id_is_video_id.
  - intros Hlink Hnone. unfold button_section, if_truthy.
    rewrite Hlink, Hnone. apply runs_ret.
Qed.

End Claims.

(** ** The claims at concrete inputs *)

(** C3 on the two fragments [Hello] and [world]: the fetcher returns them after
    a leading space, with one space between. *)
Lemma extract_transcript_details_spaced_witness :
  get_transcript "dQw4w9WgXcQ" (world (fresh (answering "notes")))
    = (Ok hello_world, served (answering "notes")) /\
  Forall2 has_text hello_world ["Hello"; "world"] /\
  runs (extract_transcript_details "dQw4w9WgXcQ") (fresh (answering "notes"))
       (Ok (Some " Hello world")) (served (answering "notes"))
       [Call_get_transcript "dQw4w9WgXcQ"].
Proof.
  assert (Htexts : Forall2 has_text hello_world ["Hello"; "world"])
    by (repeat constructor).
  split; [reflexivity|]. split; [exact Htexts|].
  exact (extract_transcript_details_spaced "dQw4w9WgXcQ" hello_world ["Hello"; "world"]
           (fresh (answering "notes")) (served (answering "notes")) eq_refl Htexts).
Defined.

(** C4 on a transcript service that raises [TranscriptsDisabled]. *)
Lemma transcripts_disabled_reported_witness :
  get_transcript "dQw4w9WgXcQ" (world (fresh (refusing (TranscriptsDisabled "off"))))
    = (Raise (TranscriptsDisabled "off"), served (refusing (TranscriptsDisabled "off"))) /\
  runs (extract_transcript_details "dQw4w9WgXcQ")
       (fresh (refusing (TranscriptsDisabled "off"))) (Ok None)
       (served (refusing (TranscriptsDisabled "off")))
       [Call_get_transcript "dQw4w9WgXcQ";
        St_error "Subtitles are disabled for this video."] /\
  runs (app pressed) (fresh (refusing (TranscriptsDisabled "off"))) (Ok tt)
       (served (refusing (TranscriptsDisabled "off")))
       (page_to_spinner "dQw4w9WgXcQ" ++
        [Call_get_transcript "dQw4w9WgXcQ";
         St_error "Subtitles are disabled for this video.";
         St_spinner_exit]).
Proof.
  assert (Hsvc :
    get_transcript "dQw4w9WgXcQ" (world (fresh (refusing (TranscriptsDisabled "off"))))
    = (Raise (TranscriptsDisabled "off"), served (refusing (TranscriptsDisabled "off"))))
    by reflexivity.
  split; [exact Hsvc|].
  destruct (transcripts_disabled_reported "dQw4w9WgXcQ" "off" _ _ Hsvc)
    as (Hfetch & _ & Happ).
  split; [exact Hfetch|].
  apply Happ; [vm_compute; reflexivity|reflexivity].
Defined.

(** C9 on a transcript service that returns no fragment. *)
Lemma empty_transcript_stops_witness :
  get_transcript "dQw4w9WgXcQ" (world (fresh silent)) = (Ok [], served silent) /\
  runs (extract_transcript_details "dQw4w9WgXcQ") (fresh silent) (Ok (Some ""))
       (served silent) [Call_get_transcript "dQw4w9WgXcQ"] /\
  runs (app pressed) (fresh silent) (Ok tt) (served silent)
       (page_to_spinner "dQw4w9WgXcQ" ++
        [Call_get_transcript "dQw4w9WgXcQ"; St_spinner_exit]).
Proof.
  assert (Hsvc :
    get_transcript "dQw4w9WgXcQ" (world (fresh silent)) = (Ok [], served silent))
    by reflexivity.
  split; [exact Hsvc|].
  destruct (empty_transcript_stops "dQw4w9WgXcQ" _ _ Hsvc) as (Hfetch & _ & Happ).
  split; [exact Hfetch|].
  apply Happ; [vm_compute; reflexivity|reflexivity].
Defined.

(** C5, as stated, fails when the text the model returns is empty: the fetch
    succeeds with the transcript [" Hello world"], the model is called and
    answers with the empty text, and the script draws no notes at all; the
    last element on the page is the button. *)
Lemma empty_answer_draws_no_notes :
  runs (extract_transcript_details "dQw4w9WgXcQ") (fresh (answering ""))
       (Ok (Some " Hello world")) (served (answering ""))
       [Call_get_transcript "dQw4w9WgXcQ"] /\
  generate_content "gemini-pro" (system_prompt +:+ " Hello world") (served (answering ""))
    = (Ok {| text := Ok "" |}, served (served (answering ""))) /\
  runs (app pressed) (fresh (answering "")) (Ok tt) (served (served (answering "")))
       (page_to_spinner "dQw4w9WgXcQ" ++
        [Call_get_transcript "dQw4w9WgXcQ";
         Call_generate_content "gemini-pro" (system_prompt +:+ " Hello world");
         St_spinner_exit]) /\
  final_rendered
       (page_to_spinner "dQw4w9WgXcQ" ++
        [Call_get_transcript "dQw4w9WgXcQ";
         Call_generate_content "gemini-pro" (system_prompt +:+ " Hello world");
         St_spinner_exit]) = Some (St_button "Generate Detailed Notes").
Proof.
  repeat split; vm_compute; reflexivity.
Qed.

(** C5, amended, on a model that answers [notes]. *)
Lemma notes_rendered_unmodified_witness :
  runs (app pressed) (fresh (answering "notes")) (Ok tt)
       (served (served (answering "notes")))
       (page_to_spinner "dQw4w9WgXcQ" ++
        [Call_get_transcript "dQw4w9WgXcQ";
         Call_generate_content "gemini-pro" (system_prompt +:+ " Hello world");
         St_markdown "---";
         St_subheader "Here are your detailed notes:";
         St_markdown "notes";
         St_spinner_exit]) /\
  final_rendered
       (page_to_spinner "dQw4w9WgXcQ" ++
        [Call_get_transcript "dQw4w9WgXcQ";
         Call_generate_content "gemini-pro" (system_prompt +:+ " Hello world");
         St_markdown "---";
         St_subheader "Here are your detailed notes:";
         St_markdown "notes";
         St_spinner_exit]) = Some (St_markdown "notes").
Proof.
  apply (notes_rendered_unmodified pressed "dQw4w9WgXcQ" hello_world ["Hello"; "world"]
           "notes" (fresh (answering "notes")) (served (answering "notes"))
           (served (served (answering "notes")))).
  - vm_compute. reflexivity.
  - reflexivity.
  - reflexivity.
  - repeat constructor.
  - discriminate.
  - reflexivity.
  - discriminate.
Defined.

(** ** The model on sample inputs *)

Example get_video_id_watch :
  get_video_id "https://www.youtube.com/watch?v=dQw4w9WgXcQ&t=42s" = Some "dQw4w9WgXcQ".
Proof. vm_compute. reflexivity. Qed.

Example get_video_id_short :
  get_video_id "https://youtu.be/dQw4w9WgXcQ" = Some "dQw4w9WgXcQ".
Proof. vm_compute. reflexivity. Qed.

Example get_video_id_embed :
  get_video_id "https://www.youtube.com/embed/dQw4w9WgXcQ?rel=0" = Some "dQw4w9WgXcQ".
Proof. vm_compute. reflexivity. Qed.

Example get_video_id_longer_run :
  get_video_id "v=dQw4w9WgXcQabc" = Some "dQw4w9WgXcQ".
Proof. vm_compute. reflexivity. Qed.

Example get_video_id_too_short : get_video_id "https://youtu.be/dQw4w9WgXc" = None.
Proof. vm_compute. reflexivity. Qed.

Example get_video_id_empty : get_video_id "" = None.
Proof. vm_compute. reflexivity. Qed.

Example system_prompt_length : String.length system_prompt = 1277.
Proof. vm_compute. reflexivity. Qed.

Example system_prompt_starts : Str.take 8 system_prompt = String "010" "You are".
Proof. vm_compute. reflexivity. Qed.

Example system_prompt_ends :
  String.substring 1260 17 system_prompt = "TRANSCRIPT DATA:" +:+ String "010" "".
Proof. vm_compute. reflexivity. Qed.

(** A fragment without a text: the [KeyError] is caught and reported. *)
Example fragment_without_text :
  extract_transcript_details "dQw4w9WgXcQ"
    (fresh {| transcript_reply := Ok [ {[ "start" := PyFloat (S754_zero false) ]} ];
              generate_reply := Ok {| text := Ok "notes" |};
              calls_served := 0 |})
  = (Returns None,
     {| world := {| transcript_reply := Ok [ {[ "start" := PyFloat (S754_zero false) ]} ];
                    generate_reply := Ok {| text := Ok "notes" |};
                    calls_served := 1 |};
        log := [Call_get_transcript "dQw4w9WgXcQ";
                St_error "Error extracting transcript: 'text'"] |}).
Proof. vm_compute. reflexivity. Qed.

Example no_transcript_found :
  log (snd (extract_transcript_details "dQw4w9WgXcQ"
              (fresh (refusing (NoTranscriptFound "none")))))
  = [Call_get_transcript "dQw4w9WgXcQ";
     St_error "No transcript found for this video language."].
Proof. vm_compute. reflexivity. Qed.

Example generation_error_reported :
  log (snd (app pressed
              (fresh {| transcript_reply := Ok hello_world;
                        generate_reply := Raise (OtherException "quota exceeded");
                        calls_served := 0 |})))
  = page_to_spinner "dQw4w9WgXcQ" ++
    [Call_get_transcript "dQw4w9WgXcQ";
     Call_generate_content "gemini-pro" (system_prompt +:+ " Hello world");
     St_error "Error generating summary: quota exceeded";
     St_spinner_exit].
Proof. vm_compute. reflexivity. Qed.

Example blocked_answer_reported :
  log (snd (generate_gemini_content " Hello world" system_prompt
              (fresh {| transcript_reply := Ok hello_world;
                        generate_reply := Ok {| text := Raise (OtherException "blocked") |};
                        calls_served := 0 |})))
  = [Call_generate_content "gemini-pro" (system_prompt +:+ " Hello world");
     St_error "Error generating summary: blocked"].
Proof. vm_compute. reflexivity. Qed.

(** ** More on the URL parser *)

Lemma search_here (s : string) (m : Re.Match) :
  Re.match_here pattern s = Some m -> Re.search pattern s = Some m.
Proof. intros H. destruct s; cbn [Re.search]; now rewrite H. Qed.

Lemma search_skip (c : ascii) (s : string) :
  Re.match_here pattern (String c s) = None ->
  Re.search pattern (String c s) = Re.search pattern s.
Proof. intros H. cbn [Re.search]. now rewrite H. Qed.

Lemma match_here_none (s : string) :
  id_here s = false -> Re.match_here pattern s = None.
Proof.
  intros H. destruct (Re.match_here pattern s) as [m|] eqn:E; [|reflexivity].
  apply match_here_inv in E as (ident & Hocc & _).
  apply occurs_id_here in Hocc. congruence.
Qed.

Lemma append_prefix (x a b y : string) :
  a +:+ b = x +:+ y -> String.length x <= String.length a -> exists z, a = x +:+ z.
Proof.
  revert a. induction x as [|c x IH]; intros a E L; [now exists a|].
  destruct a as [|d a]; [simpl in L; lia|].
  rewrite !append_cons in E. injection E as -> E. simpl in L.
  destruct (IH a E) as [z ->]; [lia|]. now exists z.
Qed.

(** X1: what the parser returns is an identifier of 11 identifier characters
    that stands in the input right after [v=] or [/], at the leftmost place
    where such a text begins. *)
Theorem get_video_id_some_leftmost (url ident : string) :
  get_video_id url = Some ident ->
  is_video_id ident = true /\
  exists pre,
    occurs_at url pre ident /\
    forall pre' ident', occurs_at url pre' ident' ->
      String.length pre <= String.length pre'.
Proof.
  unfold get_video_id. destruct (Re.search pattern url) as [m|] eqn:E; [|discriminate].
  apply search_some in E as (pre & ident0 & Hocc & Hm & Hmin).
  rewrite Hm. intros [= <-]. split.
  - now destruct Hocc as (sep & post & _ & _ & Hid).
  - now exists pre.
Qed.

(** X1 on a watch link. *)
Lemma get_video_id_some_leftmost_witness :
  get_video_id "https://www.youtube.com/watch?v=dQw4w9WgXcQ&t=42s" = Some "dQw4w9WgXcQ" /\
  is_video_id "dQw4w9WgXcQ" = true /\
  exists pre,
    occurs_at "https://www.youtube.com/watch?v=dQw4w9WgXcQ&t=42s" pre "dQw4w9WgXcQ" /\
    forall pre' ident',
      occurs_at "https://www.youtube.com/watch?v=dQw4w9WgXcQ&t=42s" pre' ident' ->
      String.length pre <= String.length pre'.
Proof.
  assert (H : get_video_id "https://www.youtube.com/watch?v=dQw4w9WgXcQ&t=42s"
              = Some "dQw4w9WgXcQ") by (vm_compute; reflexivity).
  split; [exact H|]. exact (get_video_id_some_leftmost _ _ H).
Defined.

(** X2: text in front of the first place where [v=] or [/] is followed by an
    identifier is skipped: the parser returns on the whole input what it
    returns on the rest, an identifier or [None]. *)
Theorem get_video_id_skips_prefix (pre rest : string) :
  (forall pre' ident', occurs_at (pre +:+ rest) pre' ident' ->
     String.length pre <= String.length pre') ->
  get_video_id (pre +:+ rest) = get_video_id rest.
Proof.
  unfold get_video_id. intros Hmin.
  enough (E : Re.search pattern (pre +:+ rest) = Re.search pattern rest) by now rewrite E.
  induction pre as [|c pre IH]; [reflexivity|].
  rewrite append_cons in *. rewrite search_skip.
  - apply IH. intros pre' ident' Hocc.
    apply (occurs_at_cons c) in Hocc. apply Hmin in Hocc. simpl in Hocc. lia.
  - destruct (Re.match_here pattern (String c (pre +:+ rest))) as [m|] eqn:E; [|reflexivity].
    apply match_here_inv in E as (ident & Hocc & _).
    apply Hmin in Hocc. simpl in Hocc. lia.
Qed.

(** X2 on a link inside a sentence. *)
Lemma get_video_id_skips_prefix_witness :
  get_video_id ("watch this: https:" +:+ "//youtu.be/dQw4w9WgXcQ it is great")
  = get_video_id "//youtu.be/dQw4w9WgXcQ it is great".
Proof.
  apply get_video_id_skips_prefix.
  apply (none_before_leftmost "watch this: https:" "//youtu.be/dQw4w9WgXcQ it is great").
  vm_compute. reflexivity.
Defined.

Lemma all_take_bad (p : ascii -> bool) (n : nat) (a b : string) (c : ascii) :
  String.length a < n -> p c = false -> Str.all p (Str.take n (a +:+ String c b)) = false.
Proof.
  revert n. induction a as [|x a IH]; intros n L Hc.
  - destruct n as [|n]; [simpl in L; lia|]. rewrite append_nil. simpl. now rewrite Hc.
  - destruct n as [|n]; [simpl in L; lia|]. rewrite append_cons. simpl in *.
    rewrite IH by (lia || assumption). apply andb_false_r.
Qed.

(** A [/] that is followed, within 11 characters, by a character that no
    identifier has, begins no identifier. *)
Lemma id_here_slash_bad (a b : string) (c : ascii) :
  String.length a < 11 -> id_char c = false ->
  id_here (String "/" (a +:+ String c b)) = false.
Proof.
  intros L Hc. change (is_video_id (Str.take 11 (a +:+ String c b)) = false).
  unfold is_video_id. rewrite all_take_bad by assumption. apply andb_false_r.
Qed.

Lemma search_skip_here (c : ascii) (s : string) :
  id_here (String c s) = false ->
  Re.search pattern (String c s) = Re.search pattern s.
Proof. intros H. apply search_skip, match_here_none, H. Qed.

Lemma get_video_id_here (sep ident post : string) :
  sep = "v=" \/ sep = "/" -> is_video_id ident = true ->
  get_video_id (sep +:+ ident +:+ post) = Some ident.
Proof.
  intros Hsep Hid. unfold get_video_id.
  destruct (match_here_intro (sep +:+ ident +:+ post) ident) as (m & E & Hm).
  - now exists sep, post.
  - now rewrite (search_here _ _ E).
Qed.

(** X3: a link built from an identifier parses back to it.  For every
    identifier, the watch link and the short link that carry it, followed by
    any text, give that identifier. *)
Theorem get_video_id_of_links (ident post : string) :
  is_video_id ident = true ->
  get_video_id ("https://www.youtube.com/watch?v=" +:+ ident +:+ post) = Some ident /\
  get_video_id ("https://youtu.be/" +:+ ident +:+ post) = Some ident.
Proof.
  intros Hid. split.
  - rewrite <- (get_video_id_here "v=" ident post) by auto.
    unfold get_video_id. rewrite !append_cons, !append_nil.
    do 6 (rewrite search_skip_here by reflexivity).
    rewrite search_skip_here by (apply (id_here_slash_bad "" _ "/"); [simpl; lia|reflexivity]).
    rewrite search_skip_here by (apply (id_here_slash_bad "www" _ "."); [simpl; lia|reflexivity]).
    do 15 (rewrite search_skip_here by reflexivity).
    rewrite search_skip_here by (apply (id_here_slash_bad "watch" _ "?"); [simpl; lia|reflexivity]).
    do 6 (rewrite search_skip_here by reflexivity).
    reflexivity.
  - rewrite <- (get_video_id_here "/" ident post) by auto.
    unfold get_video_id. rewrite !append_cons, !append_nil.
    do 6 (rewrite search_skip_here by reflexivity).
    rewrite search_skip_here by (apply (id_here_slash_bad "" _ "/"); [simpl; lia|reflexivity]).
    rewrite search_skip_here by (apply (id_here_slash_bad "youtu" _ "."); [simpl; lia|reflexivity]).
    do 8 (rewrite search_skip_here by reflexivity).
    reflexivity.
Qed.

(** X3 on one identifier. *)
Lemma get_video_id_of_links_witness :
  get_video_id ("https://www.youtube.com/watch?v=" +:+ "dQw4w9WgXcQ" +:+ "&t=42s")
    = Some "dQw4w9WgXcQ" /\
  get_video_id ("https://youtu.be/" +:+ "dQw4w9WgXcQ" +:+ "&t=42s") = Some "dQw4w9WgXcQ".
Proof.
  apply get_video_id_of_links. vm_compute. reflexivity.
Defined.

Lemma occurs_at_length (s pre ident : string) :
  occurs_at s pre ident -> String.length pre + 12 <= String.length s.
Proof.
  intros (sep & post & -> & Hsep & Hid).
  apply andb_true_iff in Hid as [Hlen _]. apply Nat.eqb_eq in Hlen.
  rewrite !length_append, Hlen. destruct Hsep as [-> | ->]; simpl; lia.
Qed.

Lemma occurs_at_append (s pre ident extra : string) :
  occurs_at s pre ident -> occurs_at (s +:+ extra) pre ident.
Proof.
  intros (sep & post & -> & H). exists sep, (post +:+ extra).
  now rewrite !append_assoc.
Qed.

(** An identifier that begins a text with more text appended, and that ends
    within the text, begins the text itself. *)
Lemma occurs_at_start_cut (s extra ident : string) :
  occurs_at (s +:+ extra) "" ident -> 13 <= String.length s -> occurs_at s "" ident.
Proof.
  intros (sep & post & E & Hsep & Hid) L. rewrite append_nil in E.
  rewrite <- append_assoc in E.
  destruct (append_prefix (sep +:+ ident) s extra post E) as [z ->].
  - apply andb_true_iff in Hid as [Hlen _]. apply Nat.eqb_eq in Hlen.
    rewrite length_append, Hlen. destruct Hsep as [-> | ->]; simpl; lia.
  - exists sep, z. rewrite append_nil, append_assoc. auto.
Qed.

Lemma search_append (extra url : string) (m : Re.Match) :
  Re.search pattern url = Some m ->
  exists m', Re.search pattern (url +:+ extra) = Some m' /\ Re.group m' 1 = Re.group m 1.
Proof.
  revert m. induction url as [|c s IH]; intros m H.
  - apply search_some in H as (pre & ident & Hocc & _). now apply occurs_at_empty in Hocc.
  - destruct (Re.match_here pattern (String c s)) as [m0|] eqn:E.
    + rewrite (search_here _ _ E) in H. injection H as <-.
      apply match_here_inv in E as (ident & Hocc & Hm).
      destruct (match_here_intro _ _ (occurs_at_append _ _ _ extra Hocc)) as (m' & E' & Hm').
      exists m'. split; [now apply search_here|congruence].
    + rewrite (search_skip _ _ E) in H.
      destruct (IH _ H) as (m' & E' & Hm'). exists m'. split; [|exact Hm'].
      rewrite append_cons, search_skip; [exact E'|].
      destruct (Re.match_here pattern (String c (s +:+ extra))) as [m1|] eqn:E1; [|reflexivity].
      exfalso. apply match_here_inv in E1 as (ident1 & Hocc1 & _).
      rewrite <- append_cons in Hocc1. apply occurs_at_start_cut in Hocc1.
      * destruct (match_here_intro _ _ Hocc1) as (m2 & E2 & _). congruence.
      * apply search_some in H as (pre & ident & Hocc & _).
        apply occurs_at_length in Hocc. simpl. lia.
Qed.

(** X4: text added at the end of a link never changes the identifier found
    in it. *)
Theorem get_video_id_append (url extra ident : string) :
  get_video_id url = Some ident -> get_video_id (url +:+ extra) = Some ident.
Proof.
  unfold get_video_id.
  destruct (Re.search pattern url) as [m|] eqn:E; [|discriminate].
  destruct (search_append extra _ _ E) as (m' & -> & ->). exact id.
Qed.

(** X4 on a short link and a time stamp. *)
Lemma get_video_id_append_witness :
  get_video_id "https://youtu.be/dQw4w9WgXcQ" = Some "dQw4w9WgXcQ" /\
  get_video_id ("https://youtu.be/dQw4w9WgXcQ" +:+ "?t=42") = Some "dQw4w9WgXcQ".
Proof.
  assert (H : get_video_id "https://youtu.be/dQw4w9WgXcQ" = Some "dQw4w9WgXcQ")
    by (vm_compute; reflexivity).
  split; [exact H|]. exact (get_video_id_append _ "?t=42" _ H).
Defined.

(** ** More on the fetcher and the generator *)

Section MoreSteps.

Context {W : Type} `{!Services W}.
Implicit Types (s : session W) (u : user_input).

(** The handlers of the fetcher, on an exception of its [try]. *)
Lemma extract_handles (video_id : string) s e w' ev1 :
  runs (transcript_try video_id) s (Raise e) w' ev1 ->
  runs (extract_transcript_details video_id) s (Ok None) w'
       (ev1 ++
        [St_error
           match e with
           | TranscriptsDisabled _ => "Subtitles are disabled for this video."
           | NoTranscriptFound _ => "No transcript found for this video language."
           | _ => "Error extracting transcript: " +:+ exn_str e
           end]).
Proof.
  intros Htry. unfold extract_transcript_details.
  eapply runs_try_raise; [exact Htry|].
  destruct e;
    (eapply runs_to; [eapply runs_bind; [apply runs_emit|apply runs_ret]|reflexivity..]).
Qed.

(** When the fetcher returns nothing to go on with, the steps under the
    spinner end with it, and so does a run with the button pressed. *)
Lemma fetch_stops_run (video_id : string) (r : option string) s w' evs :
  (forall s0, world s0 = world s ->
     runs (extract_transcript_details video_id) s0 (Ok r) w' evs) ->
  truthy r = false ->
  runs (pipeline video_id) s (Ok tt) w' evs /\
  forall u,
    get_video_id (link_text u) = Some video_id ->
    notes_clicked u = true ->
    runs (app u) s (Ok tt) w' (page_to_spinner video_id ++ evs ++ [St_spinner_exit]).
Proof.
  intros Hfetch Hr. split.
  - apply (pipeline_stops _ _ r); [now apply Hfetch|exact Hr].
  - intros u Hid Hclick. apply (runs_app_pipeline u video_id s (Ok tt) w' evs Hid Hclick).
    apply (pipeline_stops _ _ r); [now apply Hfetch|exact Hr].
Qed.

Lemma transcript_try_raises (video_id : string) s e w' :
  get_transcript video_id (world s) = (Raise e, w') ->
  runs (transcript_try video_id) s (Raise e) w' [Call_get_transcript video_id].
Proof.
  intros Hsvc. unfold transcript_try. apply runs_bind_raise, runs_get_transcript, Hsvc.
Qed.

(** X5: when the transcript service raises [NoTranscriptFound], the fetcher
    draws the message that no transcript was found for the language and
    returns [None]; the steps under the spinner end there, and a run with the
    button pressed calls the generative model not at all. *)
Theorem no_transcript_found_reported (video_id msg : string) s w' :
  get_transcript video_id (world s) = (Raise (NoTranscriptFound msg), w') ->
  runs (extract_transcript_details video_id) s (Ok None) w'
       [Call_get_transcript video_id;
        St_error "No transcript found for this video language."] /\
  runs (pipeline video_id) s (Ok tt) w'
       [Call_get_transcript video_id;
        St_error "No transcript found for this video language."] /\
  forall u,
    get_video_id (link_text u) = Some video_id ->
    notes_clicked u = true ->
    runs (app u) s (Ok tt) w'
         (page_to_spinner video_id ++
          [Call_get_transcript video_id;
           St_error "No transcript found for this video language.";
           St_spinner_exit]).
Proof.
  intros Hsvc.
  assert (Hfetch : forall s0, world s0 = world s ->
    runs (extract_transcript_details video_id) s0 (Ok None) w'
         [Call_get_transcript video_id;
          St_error "No transcript found for this video language."]).
  { intros s0 Hw.
    apply (extract_handles video_id s0 (NoTranscriptFound msg) w'
             [Call_get_transcript video_id]).
    apply transcript_try_raises. now rewrite Hw. }
  split; [now apply Hfetch|].
  exact (fetch_stops_run video_id None s w' _ Hfetch eq_refl).
Qed.

(** X6: when the transcript service raises any other exception, the fetcher
    draws ["Error extracting transcript: "] followed by the text of the
    exception and returns [None]; the steps under the spinner end there, and
    a run with the button pressed calls the generative model not at all. *)
Theorem fetch_error_reported (video_id : string) (e : exn) s w' :
  get_transcript video_id (world s) = (Raise e, w') ->
  (forall msg, e <> TranscriptsDisabled msg) ->
  (forall msg, e <> NoTranscriptFound msg) ->
  runs (extract_transcript_details video_id) s (Ok None) w'
       [Call_get_transcript video_id;
        St_error ("Error extracting transcript: " +:+ exn_str e)] /\
  runs (pipeline video_id) s (Ok tt) w'
       [Call_get_transcript video_id;
        St_error ("Error extracting transcript: " +:+ exn_str e)] /\
  forall u,
    get_video_id (link_text u) = Some video_id ->
    notes_clicked u = true ->
    runs (app u) s (Ok tt) w'
         (page_to_spinner video_id ++
          [Call_get_transcript video_id;
           St_error ("Error extracting transcript: " +:+ exn_str e);
           St_spinner_exit]).
Proof.
  intros Hsvc Hdis Hnone.
  assert (Hfetch : forall s0, world s0 = world s ->
    runs (extract_transcript_details video_id) s0 (Ok None) w'
         [Call_get_transcript video_id;
          St_error ("Error extracting transcript: " +:+ exn_str e)]).
  { intros s0 Hw.
    eapply runs_to;
      [apply (extract_handles video_id s0 e w' [Call_get_transcript video_id]),
         transcript_try_raises; now rewrite Hw
      |reflexivity|].
    destruct e; try reflexivity; [now destruct (Hdis msg)|now destruct (Hnone msg)]. }
  split; [now apply Hfetch|].
  exact (fetch_stops_run video_id None s w' _ Hfetch eq_refl).
Qed.

(** One round of the loop of lines 65-66 on a fragment that carries a text. *)
Lemma loop_body_text (f : fragment) (t acc : string) s :
  has_text f t ->
  runs (bind (lift (getitem f "text")) (fun v =>
        bind (lift (str_add " " v)) (fun piece =>
        ret (acc +:+ piece)))) s (Ok (acc +:+ " " +:+ t)) (world s) [].
Proof.
  intros Hf. unfold getitem. rewrite Hf.
  eapply runs_to; [|reflexivity..].
  eapply (runs_bind _ _ _ _ _ [] _ _ []); [apply runs_lift|].
  eapply (runs_bind _ _ _ _ _ [] _ _ []); [apply runs_lift|].
  rewrite !after_nil. apply runs_ret.
Qed.

(** The loop stops at the first fragment on which its body raises. *)
Lemma for_each_fails (good : list fragment) (texts : list string) (f : fragment)
    (rest : list fragment) (e : exn) :
  Forall2 has_text good texts ->
  (forall acc s,
     runs (bind (lift (getitem f "text")) (fun v =>
           bind (lift (str_add " " v)) (fun piece =>
           ret (acc +:+ piece)))) s (Raise e) (world s) []) ->
  forall (acc : string) s,
    runs (for_each (good ++ f :: rest) acc
            (fun transcript i =>
               bind (lift (getitem i "text")) (fun v =>
               bind (lift (str_add " " v)) (fun piece =>
               ret (transcript +:+ piece)))))
         s (Raise e) (world s) [].
Proof.
  intros Hgood Hbad. induction Hgood as [|g t good texts Hg _ IH]; intros acc s.
  - apply runs_bind_raise, Hbad.
  - cbn [app for_each].
    eapply runs_to;
      [eapply runs_bind; [apply loop_body_text, Hg|]|reflexivity..].
    rewrite after_nil. apply IH.
Qed.

(** The fetcher on fragments of which one makes the loop raise. *)
Lemma fetch_fails_runs (video_id : string) (good : list fragment) (texts : list string)
    (f : fragment) (rest : list fragment) (e : exn) s w' :
  get_transcript video_id (world s) = (Ok (good ++ f :: rest), w') ->
  Forall2 has_text good texts ->
  (forall acc s,
     runs (bind (lift (getitem f "text")) (fun v =>
           bind (lift (str_add " " v)) (fun piece =>
           ret (acc +:+ piece)))) s (Raise e) (world s) []) ->
  runs (transcript_try video_id) s (Raise e) w' [Call_get_transcript video_id].
Proof.
  intros Hsvc Hgood Hbad. unfold transcript_try.
  eapply runs_to;
    [eapply runs_bind;
       [apply runs_get_transcript, Hsvc
       |apply runs_bind_raise, (for_each_fails good texts f rest e Hgood Hbad)]
    |reflexivity..].
Qed.

(** X7: when a fragment has no ["text"] key, and the fragments before it
    carry texts, the fetcher draws the error of the missing key and returns
    [None]: the texts read so far are dropped, the steps under the spinner
    end there, and a run with the button pressed calls the generative model
    not at all. *)
Theorem fragment_without_text_reported (video_id : string) (good : list fragment)
    (texts : list string) (f : fragment) (rest : list fragment) s w' :
  get_transcript video_id (world s) = (Ok (good ++ f :: rest), w') ->
  Forall2 has_text good texts ->
  f !! "text" = None ->
  runs (extract_transcript_details video_id) s (Ok None) w'
       [Call_get_transcript video_id; St_error "Error extracting transcript: 'text'"] /\
  runs (pipeline video_id) s (Ok tt) w'
       [Call_get_transcript video_id; St_error "Error extracting transcript: 'text'"] /\
  forall u,
    get_video_id (link_text u) = Some video_id ->
    notes_clicked u = true ->
    runs (app u) s (Ok tt) w'
         (page_to_spinner video_id ++
          [Call_get_transcript video_id;
           St_error "Error extracting transcript: 'text'";
           St_spinner_exit]).
Proof.
  intros Hsvc Hgood Hf.
  assert (Hfetch : forall s0, world s0 = world s ->
    runs (extract_transcript_details video_id) s0 (Ok None) w'
         [Call_get_transcript video_id; St_error "Error extracting transcript: 'text'"]).
  { intros s0 Hw.
    apply (extract_handles video_id s0 (KeyError "'text'") w' [Call_get_transcript video_id]).
    apply (fetch_fails_runs video_id good texts f rest); [now rewrite Hw|exact Hgood|].
    intros acc s1. unfold getitem. rewrite Hf. apply runs_bind_raise, runs_lift. }
  split; [now apply Hfetch|].
  exact (fetch_stops_run video_id None s w' _ Hfetch eq_refl).
Qed.

(** X8: when the ["text"] of a fragment is not a [str], and the fragments
    before it carry texts, the fetcher draws the [TypeError] of the
    concatenation, which names the type found, and returns [None]; the steps
    under the spinner end there, and a run with the button pressed calls the
    generative model not at all. *)
Theorem fragment_text_not_str_reported (video_id : string) (good : list fragment)
    (texts : list string) (f : fragment) (v : pyval) (rest : list fragment) s w' :
  get_transcript video_id (world s) = (Ok (good ++ f :: rest), w') ->
  Forall2 has_text good texts ->
  f !! "text" = Some v ->
  (forall t, v <> PyStr t) ->
  runs (extract_transcript_details video_id) s (Ok None) w'
       [Call_get_transcript video_id;
        St_error ("Error extracting transcript: can only concatenate str (not "
                  +:+ dq +:+ type_name v +:+ dq +:+ ") to str")] /\
  runs (pipeline video_id) s (Ok tt) w'
       [Call_get_transcript video_id;
        St_error ("Error extracting transcript: can only concatenate str (not "
                  +:+ dq +:+ type_name v +:+ dq +:+ ") to str")] /\
  forall u,
    get_video_id (link_text u) = Some video_id ->
    notes_clicked u = true ->
    runs (app u) s (Ok tt) w'
         (page_to_spinner video_id ++
          [Call_get_transcript video_id;
           St_error ("Error extracting transcript: can only concatenate str (not "
                     +:+ dq +:+ type_name v +:+ dq +:+ ") to str");
           St_spinner_exit]).
Proof.
  intros Hsvc Hgood Hf Hv.
  assert (Hfetch : forall s0, world s0 = world s ->
    runs (extract_transcript_details video_id) s0 (Ok None) w'
         [Call_get_transcript video_id;
          St_error ("Error extracting transcript: can only concatenate str (not "
                    +:+ dq +:+ type_name v +:+ dq +:+ ") to str")]).
  { intros s0 Hw.
    apply (extract_handles video_id s0
             (TypeError ("can only concatenate str (not " +:+ dq +:+ type_name v
                         +:+ dq +:+ ") to str"))
             w' [Call_get_transcript video_id]).
    apply (fetch_fails_runs video_id good texts f rest); [now rewrite Hw|exact Hgood|].
    intros acc s1. unfold getitem. rewrite Hf.
    eapply runs_to; [|reflexivity..].
    eapply (runs_bind _ _ _ _ _ [] _ _ []); [apply runs_lift|].
    cbv beta. rewrite after_nil.
    destruct v as [t| |]; [now destruct (Hv t)| |]; apply runs_bind_raise, runs_lift. }
  split; [now apply Hfetch|].
  exact (fetch_stops_run video_id None s w' _ Hfetch eq_refl).
Qed.

(** X9: when the call to the model raises, or reading the text of its
    response raises, the generator draws ["Error generating summary: "]
    followed by the text of the exception, draws nothing else and returns
    [None]. *)
Theorem generator_error_reported (transcript_text prompt : string) (e : exn)
    (r : outcome response) s w' :
  generate_content "gemini-pro" (prompt +:+ transcript_text) (world s) = (r, w') ->
  r = Raise e \/ r = Ok {| text := Raise e |} ->
  runs (generate_gemini_content transcript_text prompt) s (Ok None) w'
       [Call_generate_content "gemini-pro" (prompt +:+ transcript_text);
        St_error ("Error generating summary: " +:+ exn_str e)].
Proof.
  intros Hsvc Hr.
  assert (Htry :
    runs (generate_try transcript_text prompt) s (Raise e) w'
         [Call_generate_content "gemini-pro" (prompt +:+ transcript_text)]).
  { unfold generate_try. cbv zeta. destruct Hr as [-> | ->].
    - apply runs_bind_raise, runs_generate_content, Hsvc.
    - eapply runs_to;
        [eapply runs_bind;
           [apply runs_generate_content, Hsvc|apply runs_bind_raise, runs_lift]
        |reflexivity|apply app_nil_r]. }
  unfold generate_gemini_content.
  eapply runs_to;
    [eapply runs_try_raise;
       [exact Htry|eapply runs_bind; [apply runs_emit|apply runs_ret]]
    |reflexivity..].
Qed.

(** The fetcher on fragments that all carry a text. *)
Lemma fetch_texts_runs (video_id : string) (frags : list fragment)
    (texts : list string) s w' :
  get_transcript video_id (world s) = (Ok frags, w') ->
  Forall2 has_text frags texts ->
  runs (extract_transcript_details video_id) s (Ok (Some (spaced texts))) w'
       [Call_get_transcript video_id].
Proof.
  intros Hsvc Htexts. unfold extract_transcript_details. apply runs_try_ok.
  unfold transcript_try. rewrite <- spaced_foldr, <- (append_nil (foldr _ _ _)).
  eapply runs_to;
    [eapply runs_bind;
       [apply runs_get_transcript, Hsvc
       |eapply runs_bind; [apply for_each_texts, Htexts|apply runs_ret]]
    |reflexivity|reflexivity].
Qed.

(** X10: captions always reach the model.  When the transcript service
    returns at least one fragment, and every fragment carries a text, the
    steps under the spinner call the model next, with the template followed
    by the transcript, even when every text is empty. *)
Theorem captions_reach_the_model (video_id : string) (frags : list fragment)
    (texts : list string) s w1 :
  get_transcript video_id (world s) = (Ok frags, w1) ->
  Forall2 has_text frags texts ->
  frags <> [] ->
  exists w' evs,
    runs (pipeline video_id) s (Ok tt) w'
         (Call_get_transcript video_id ::
          Call_generate_content "gemini-pro" (system_prompt +:+ spaced texts) :: evs).
Proof.
  intros Hsvc Htexts Hne.
  assert (Ht : Str.truthy (spaced texts) = true).
  { destruct Htexts; [congruence|reflexivity]. }
  pose proof (fetch_texts_runs video_id frags texts s w1 Hsvc Htexts) as Hfetch.
  destruct (generate_gemini_content_runs (spaced texts) system_prompt
              (after s w1 [Call_get_transcript video_id]))
    as (x & w2 & ev2 & Hgen & Hcase).
  pose proof (pipeline_generates video_id (spaced texts) s w1 _ x w2 ev2 Hfetch Ht Hgen)
    as Hpipe.
  exists w2.
  destruct Hcase as [->|[-> [msg ->]]]; eexists; exact Hpipe.
Qed.

(** ** More on the script *)

Lemma runs_link_section (youtube_link : string) s :
  runs (link_section youtube_link) s (Ok tt) (world s)
       match get_video_id youtube_link with
       | Some video_id =>
           [St_image ("http://img.youtube.com/vi/" +:+ video_id +:+ "/0.jpg") false 500]
       | None =>
           if Str.truthy youtube_link
           then [St_warning "Please enter a valid YouTube URL."] else []
       end.
Proof.
  unfold link_section, if_truthy.
  destruct (get_video_id youtube_link) as [video_id|] eqn:Hid.
  - destruct (get_video_id_truthy _ _ Hid) as [-> ->]. apply runs_emit.
  - destruct (Str.truthy youtube_link); [apply runs_emit|apply runs_ret].
Qed.

(** X11: below the input, the script draws the thumbnail whose address holds
    exactly the identifier found in the link; or, for a link that is not
    empty and holds no identifier, the warning about the link; or, for an
    empty link, nothing.  It calls no service for that. *)
Theorem link_section_draws (youtube_link : string) s :
  exists evs,
    runs (link_section youtube_link) s (Ok tt) (world s) evs /\
    (forall video_id,
       get_video_id youtube_link = Some video_id ->
       evs = [St_image ("http://img.youtube.com/vi/" +:+ video_id +:+ "/0.jpg")
                       false 500]) /\
    (get_video_id youtube_link = None -> youtube_link <> "" ->
     evs = [St_warning "Please enter a valid YouTube URL."]) /\
    (youtube_link = "" -> evs = []).
Proof.
  eexists. split; [apply runs_link_section|].
  split; [|split].
  - now intros video_id ->.
  - intros -> Hne. destruct youtube_link; [congruence|reflexivity].
  - intros ->. reflexivity.
Qed.

(** X12: a run in which the button is not pressed calls no service, whatever
    the link: it leaves the services as they were. *)
Theorem no_press_no_call u s :
  notes_clicked u = false ->
  exists evs,
    runs (app u) s (Ok tt) (world s) evs /\ Forall (fun e => is_call e = false) evs.
Proof.
  intros Hclick. eexists. split.
  - apply runs_app.
    eapply runs_to;
      [eapply runs_bind; [apply runs_page_top|];
       eapply runs_bind; [apply runs_link_section|];
       eapply runs_bind; [apply runs_st_button|];
       rewrite Hclick; apply runs_ret
      |reflexivity..].
  - destruct (get_video_id (link_text u)); [|destruct (Str.truthy (link_text u))];
      repeat constructor.
Qed.

(** X13: a run calls each service at most once and never the model before
    the transcript service: its calls are none, or the fetch for the
    identifier of the link, or that fetch followed by one call to the model
    with the template followed by a transcript. *)
Theorem calls_of_a_run u s :
  exists w' evs,
    runs (app u) s (Ok tt) w' evs /\
    (filter (fun e => is_call e = true) evs = [] \/
     exists video_id,
       get_video_id (link_text u) = Some video_id /\
       (filter (fun e => is_call e = true) evs = [Call_get_transcript video_id] \/
        exists transcript,
          filter (fun e => is_call e = true) evs
          = [Call_get_transcript video_id;
             Call_generate_content "gemini-pro" (system_prompt +:+ transcript)])).
Proof.
  destruct (app_runs u s) as (w' & evs & Hrun & Hlog).
  exists w', evs. split; [exact Hrun|].
  destruct Hlog as [Hempty|Hlink Hnone|video_id Hid Hclick|video_id fetched inner Hid Hclick Hpipe].
  - left. now destruct (notes_clicked u).
  - now left.
  - now left.
  - right. exists video_id. split; [exact Hid|].
    destruct Hpipe; [left|left|right|right|right]; try reflexivity;
      exists transcript; reflexivity.
Qed.

(** An event of one kind is not in a log that is written out and holds none. *)
Ltac not_in_log :=
  let Hin := fresh "Hin" in
  intros ? Hin;
  repeat (apply elem_of_cons in Hin as [Hin|Hin]; [discriminate Hin|]);
  now apply elem_of_nil in Hin.

(** X14: an error message ends a run.  In every run, an error message is
    the last thing before the spinner goes away: no other error message and
    no notes were drawn before it, and nothing is drawn after it. *)
Theorem error_ends_the_run u s :
  exists w' evs,
    runs (app u) s (Ok tt) w' evs /\
    forall before msg rest,
      evs = before ++ St_error msg :: rest ->
      rest = [St_spinner_exit] /\
      (forall m, St_error m ∉ before) /\
      (forall b, St_subheader b ∉ before).
Proof.
  destruct (app_runs u s) as (w' & evs & Hrun & Hlog).
  exists w', evs. split; [exact Hrun|]. intros before msg rest E.
  destruct Hlog as [Hempty|Hlink Hnone|video_id Hid Hclick|video_id fetched inner Hid Hclick Hpipe].
  - exfalso. destruct (notes_clicked u);
      repeat (destruct before as [|? before]; simplify_eq/=).
  - exfalso. repeat (destruct before as [|? before]; simplify_eq/=).
  - exfalso. repeat (destruct before as [|? before]; simplify_eq/=).
  - destruct Hpipe;
      repeat (destruct before as [|? before]; simplify_eq/=);
      (split; [reflexivity|]); split; not_in_log.
Qed.

(** X15: the spinner never stays.  In every run that shows the spinner, the
    last thing that happens is that the spinner goes away, whether the steps
    under it drew notes, drew an error or drew nothing. *)
Theorem spinner_always_closed u s :
  exists w' evs,
    runs (app u) s (Ok tt) w' evs /\
    forall text, St_spinner_enter text ∈ evs -> last evs = Some St_spinner_exit.
Proof.
  destruct (app_runs u s) as (w' & evs & Hrun & Hlog).
  exists w', evs. split; [exact Hrun|]. intros text Hin.
  destruct Hlog as [Hempty|Hlink Hnone|video_id Hid Hclick|video_id fetched inner Hid Hclick Hpipe].
  - exfalso. revert text Hin. destruct (notes_clicked u); not_in_log.
  - exfalso. revert text Hin. not_in_log.
  - exfalso. revert text Hin. not_in_log.
  - now rewrite !app_assoc, last_snoc.
Qed.

End MoreSteps.

(** X5 on a transcript service that raises [NoTranscriptFound]. *)
Lemma no_transcript_found_reported_witness :
  runs (extract_transcript_details "dQw4w9WgXcQ")
       (fresh (refusing (NoTranscriptFound "en"))) (Ok None)
       (served (refusing (NoTranscriptFound "en")))
       [Call_get_transcript "dQw4w9WgXcQ";
        St_error "No transcript found for this video language."] /\
  runs (app pressed) (fresh (refusing (NoTranscriptFound "en"))) (Ok tt)
       (served (refusing (NoTranscriptFound "en")))
       (page_to_spinner "dQw4w9WgXcQ" ++
        [Call_get_transcript "dQw4w9WgXcQ";
         St_error "No transcript found for this video language.";
         St_spinner_exit]).
Proof.
  assert (Hsvc :
    get_transcript "dQw4w9WgXcQ" (world (fresh (refusing (NoTranscriptFound "en"))))
    = (Raise (NoTranscriptFound "en"), served (refusing (NoTranscriptFound "en"))))
    by reflexivity.
  destruct (no_transcript_found_reported "dQw4w9WgXcQ" "en" _ _ Hsvc)
    as (Hfetch & _ & Happ).
  split; [exact Hfetch|].
  apply Happ; [vm_compute; reflexivity|reflexivity].
Defined.

(** X6 on a transcript service that cannot be reached. *)
Lemma fetch_error_reported_witness :
  runs (extract_transcript_details "dQw4w9WgXcQ")
       (fresh (refusing (OtherException "network unreachable"))) (Ok None)
       (served (refusing (OtherException "network unreachable")))
       [Call_get_transcript "dQw4w9WgXcQ";
        St_error "Error extracting transcript: network unreachable"] /\
  runs (app pressed) (fresh (refusing (OtherException "network unreachable"))) (Ok tt)
       (served (refusing (OtherException "network unreachable")))
       (page_to_spinner "dQw4w9WgXcQ" ++
        [Call_get_transcript "dQw4w9WgXcQ";
         St_error "Error extracting transcript: network unreachable";
         St_spinner_exit]).
Proof.
  assert (Hsvc :
    get_transcript "dQw4w9WgXcQ"
      (world (fresh (refusing (OtherException "network unreachable"))))
    = (Raise (OtherException "network unreachable"),
       served (refusing (OtherException "network unreachable"))))
    by reflexivity.
  destruct (fetch_error_reported "dQw4w9WgXcQ" (OtherException "network unreachable")
              _ _ Hsvc ltac:(discriminate) ltac:(discriminate))
    as (Hfetch & _ & Happ).
  split; [exact Hfetch|].
  apply Happ; [vm_compute; reflexivity|reflexivity].
Defined.

(** X7 on three fragments of which the second has no text. *)
Lemma fragment_without_text_reported_witness :
  runs (app pressed)
       (fresh (serving [ {[ "text" := PyStr "Hello" ]};
                         {[ "start" := PyFloat (S754_zero false) ]};
                         {[ "text" := PyStr "world" ]} ]))
       (Ok tt)
       (served (serving [ {[ "text" := PyStr "Hello" ]};
                          {[ "start" := PyFloat (S754_zero false) ]};
                          {[ "text" := PyStr "world" ]} ]))
       (page_to_spinner "dQw4w9WgXcQ" ++
        [Call_get_transcript "dQw4w9WgXcQ";
         St_error "Error extracting transcript: 'text'";
         St_spinner_exit]).
Proof.
  assert (Hgood : Forall2 has_text [ ({[ "text" := PyStr "Hello" ]} : fragment) ] ["Hello"])
    by (repeat constructor).
  assert (Hsvc :
    get_transcript "dQw4w9WgXcQ"
      (world (fresh (serving [ {[ "text" := PyStr "Hello" ]};
                               {[ "start" := PyFloat (S754_zero false) ]};
                               {[ "text" := PyStr "world" ]} ])))
    = (Ok ([ {[ "text" := PyStr "Hello" ]} ] ++
           {[ "start" := PyFloat (S754_zero false) ]} :: [ {[ "text" := PyStr "world" ]} ]),
       served (serving [ {[ "text" := PyStr "Hello" ]};
                         {[ "start" := PyFloat (S754_zero false) ]};
                         {[ "text" := PyStr "world" ]} ])))
    by reflexivity.
  assert (Hf : ({[ "start" := PyFloat (S754_zero false) ]} : fragment) !! "text" = None)
    by reflexivity.
  destruct (fragment_without_text_reported "dQw4w9WgXcQ" _ _ _ _ _ _ Hsvc Hgood Hf)
    as (_ & _ & Happ).
  apply Happ; [vm_compute; reflexivity|reflexivity].
Defined.

(** X8 on a fragment whose text is [None]. *)
Lemma fragment_text_not_str_reported_witness :
  runs (extract_transcript_details "dQw4w9WgXcQ")
       (fresh (serving [ {[ "text" := PyNone ]} ])) (Ok None)
       (served (serving [ {[ "text" := PyNone ]} ]))
       [Call_get_transcript "dQw4w9WgXcQ";
        St_error ("Error extracting transcript: can only concatenate str (not "
                  +:+ dq +:+ "NoneType" +:+ dq +:+ ") to str")].
Proof.
  assert (Hsvc :
    get_transcript "dQw4w9WgXcQ" (world (fresh (serving [ {[ "text" := PyNone ]} ])))
    = (Ok ([] ++ {[ "text" := PyNone ]} :: []),
       served (serving [ {[ "text" := PyNone ]} ])))
    by reflexivity.
  assert (Hf : ({[ "text" := PyNone ]} : fragment) !! "text" = Some PyNone)
    by reflexivity.
  assert (Hv : forall t, PyNone <> PyStr t) by discriminate.
  assert (Hgood : Forall2 has_text [] []) by constructor.
  destruct (fragment_text_not_str_reported "dQw4w9WgXcQ" [] [] _ PyNone [] _ _
              Hsvc Hgood Hf Hv)
    as (Hfetch & _).
  exact Hfetch.
Defined.

(** X9 on a model whose quota is used up. *)
Lemma generator_error_reported_witness :
  runs (generate_gemini_content " Hello world" system_prompt)
       (fresh (model_replying (Raise (OtherException "quota exceeded")))) (Ok None)
       (served (model_replying (Raise (OtherException "quota exceeded"))))
       [Call_generate_content "gemini-pro" (system_prompt +:+ " Hello world");
        St_error "Error generating summary: quota exceeded"].
Proof.
  apply (generator_error_reported " Hello world" system_prompt
           (OtherException "quota exceeded") (Raise (OtherException "quota exceeded"))).
  - reflexivity.
  - left. reflexivity.
Defined.

(** X10 on one fragment with an empty text: the transcript is one space. *)
Lemma captions_reach_the_model_witness :
  exists w' evs,
    runs (pipeline "dQw4w9WgXcQ") (fresh (serving [ {[ "text" := PyStr "" ]} ])) (Ok tt) w'
         (Call_get_transcript "dQw4w9WgXcQ" ::
          Call_generate_content "gemini-pro" (system_prompt +:+ " ") :: evs).
Proof.
  apply (captions_reach_the_model "dQw4w9WgXcQ" [ {[ "text" := PyStr "" ]} ] [""]
           (fresh (serving [ {[ "text" := PyStr "" ]} ]))
           (served (serving [ {[ "text" := PyStr "" ]} ]))).
  - reflexivity.
  - repeat constructor.
  - discriminate.
Defined.

(** X12 on a link that is typed and not yet submitted. *)
Lemma no_press_no_call_witness :
  exists evs,
    runs (app typed) (fresh (answering "notes")) (Ok tt) (answering "notes") evs /\
    Forall (fun e => is_call e = false) evs.
Proof.
  apply (no_press_no_call typed (fresh (answering "notes"))). reflexivity.
Defined.

Section EmptyAnswer.

Context {W : Type} `{!Services W}.

(** X16: an empty answer is passed over in silence.  When the fetch succeeds
    with at least one fragment and the model returns the empty text, a run
    with the button pressed makes both calls and then draws nothing: no
    notes, no heading and no error message. *)
Theorem empty_answer_is_silent (u : user_input) (video_id : string)
    (frags : list fragment) (texts : list string) (s : session W) (w1 w2 : W) :
  get_video_id (link_text u) = Some video_id ->
  notes_clicked u = true ->
  get_transcript video_id (world s) = (Ok frags, w1) ->
  Forall2 has_text frags texts ->
  texts <> [] ->
  generate_content "gemini-pro" (system_prompt +:+ spaced texts) w1
    = (Ok {| text := Ok "" |}, w2) ->
  runs (app u) s (Ok tt) w2
       (page_to_spinner video_id ++
        [Call_get_transcript video_id;
         Call_generate_content "gemini-pro" (system_prompt +:+ spaced texts);
         St_spinner_exit]).
Proof.
  intros Hid Hclick Hsvc Htexts Hne Hgen.
  assert (Ht : Str.truthy (spaced texts) = true) by (destruct texts; [congruence|reflexivity]).
  assert (Hanswer :
    runs (generate_gemini_content (spaced texts) system_prompt)
         (after (after s (world s) (page_to_spinner video_id)) w1
                [Call_get_transcript video_id])
         (Ok (Some "")) w2
         [Call_generate_content "gemini-pro" (system_prompt +:+ spaced texts)]).
  { unfold generate_gemini_content. apply runs_try_ok. unfold generate_try. cbv zeta.
    eapply runs_to;
      [eapply runs_bind;
         [apply runs_generate_content; exact Hgen
         |eapply runs_bind; [apply runs_lift|apply runs_ret]]
      |reflexivity..]. }
  pose proof (fetch_texts_runs video_id frags texts
                (after s (world s) (page_to_spinner video_id)) w1 Hsvc Htexts) as Hfetch.
  eapply runs_to;
    [eapply (runs_app_pipeline u video_id s (Ok tt) w2 _ Hid Hclick),
       (pipeline_generates video_id (spaced texts) _ w1 _ (Some "") w2 _ Hfetch Ht Hanswer)
    |reflexivity|reflexivity].
Qed.

End EmptyAnswer.

(** X16 on a model that answers with the empty text. *)
Lemma empty_answer_is_silent_witness :
  runs (app pressed) (fresh (answering "")) (Ok tt) (served (served (answering "")))
       (page_to_spinner "dQw4w9WgXcQ" ++
        [Call_get_transcript "dQw4w9WgXcQ";
         Call_generate_content "gemini-pro" (system_prompt +:+ " Hello world");
         St_spinner_exit]).
Proof.
  apply (empty_answer_is_silent pressed "dQw4w9WgXcQ" hello_world ["Hello"; "world"]
           (fresh (answering "")) (served (answering "")) (served (served (answering "")))).
  - vm_compute. reflexivity.
  - reflexivity.
  - reflexivity.
  - repeat constructor.
  - discriminate.
  - reflexivity.
Defined.

(** ** Errors never leave their step *)

Section Errors.

Context {W : Type} `{!Services W}.
Implicit Types (s : session W) (u : user_input).

(** Among fragments of which one carries no text there is a first such one. *)
Lemma first_bad_fragment (frags : list fragment) (f : fragment) :
  f ∈ frags -> (forall t, ~ has_text f t) ->
  exists good texts f' rest,
    frags = good ++ f' :: rest /\ Forall2 has_text good texts /\
    forall t, ~ has_text f' t.
Proof.
  intros Hin Hbad. induction frags as [|f0 frags IH]; [now apply elem_of_nil in Hin|].
  destruct (f0 !! "text") as [[t0| |]|] eqn:H0.
  - apply elem_of_cons in Hin as [->|Hin]; [now destruct (Hbad t0)|].
    destruct (IH Hin) as (good & texts & f' & rest & -> & Hgood & Hf').
    exists (f0 :: good), (t0 :: texts), f', rest.
    split; [reflexivity|]. split; [now constructor|exact Hf'].
  - exists [], [], f0, frags. split; [reflexivity|]. split; [constructor|].
    unfold has_text. congruence.
  - exists [], [], f0, frags. split; [reflexivity|]. split; [constructor|].
    unfold has_text. congruence.
  - exists [], [], f0, frags. split; [reflexivity|]. split; [constructor|].
    unfold has_text. congruence.
Qed.

(** On a fragment that carries no text the body of the loop raises, a
    [KeyError] or a [TypeError]. *)
Lemma bad_fragment_raises (f : fragment) :
  (forall t, ~ has_text f t) ->
  exists e,
    (forall (acc : string) s,
       runs (bind (lift (getitem f "text")) (fun v =>
             bind (lift (str_add " " v)) (fun piece =>
             ret (acc +:+ piece)))) s (Raise e) (world s) []) /\
    ((exists msg, e = KeyError msg) \/ (exists msg, e = TypeError msg)).
Proof.
  intros Hbad. unfold getitem. destruct (f !! "text") as [v|] eqn:Hf.
  - destruct v as [t| |]; [now destruct (Hbad t)| |];
      (eexists; split; [|right; eexists; reflexivity]; intros acc s;
       eapply runs_to; [|reflexivity..];
       eapply (runs_bind _ _ _ _ _ [] _ _ []); [apply runs_lift|];
       rewrite after_nil; apply runs_bind_raise, runs_lift).
  - eexists. split; [|left; eexists; reflexivity]. intros acc s.
    apply runs_bind_raise, runs_lift.
Qed.

Lemma generate_try_raises (transcript_text prompt : string) (e : exn)
    (r : outcome response) s w' :
  generate_content "gemini-pro" (prompt +:+ transcript_text) (world s) = (r, w') ->
  r = Raise e \/ r = Ok {| text := Raise e |} ->
  runs (generate_try transcript_text prompt) s (Raise e) w'
       [Call_generate_content "gemini-pro" (prompt +:+ transcript_text)].
Proof.
  intros Hsvc Hr. unfold generate_try. cbv zeta. destruct Hr as [-> | ->].
  - apply runs_bind_raise, runs_generate_content, Hsvc.
  - eapply runs_to;
      [eapply runs_bind;
         [apply runs_generate_content, Hsvc|apply runs_bind_raise, runs_lift]
      |reflexivity|apply app_nil_r].
Qed.

(** The handler of the generator, on an exception of its [try]. *)
Lemma generate_handles (transcript_text prompt : string) s e w' ev1 :
  runs (generate_try transcript_text prompt) s (Raise e) w' ev1 ->
  runs (generate_gemini_content transcript_text prompt) s (Ok None) w'
       (ev1 ++ [St_error ("Error generating summary: " +:+ exn_str e)]).
Proof.
  intros Htry. unfold generate_gemini_content.
  eapply runs_try_raise; [exact Htry|].
  eapply runs_to; [eapply runs_bind; [apply runs_emit|apply runs_ret]|reflexivity..].
Qed.

(** C8, amended: no exception that is an instance of [Exception] leaves the
    step it was raised in.  Whatever error the transcript service raises,
    and whichever fragment it returns without a text, the fetcher draws
    exactly one error message and returns [None], and the steps under the
    spinner end there.  Whatever error the call to the model raises, or the
    reading of the text of its response, the generator draws exactly one
    error message and returns [None], and the steps under the spinner end
    there.  The fetcher, the generator, the steps under the spinner and the
    whole script always return, and in the steps under the spinner nothing
    follows an error message. *)
Theorem errors_are_caught (video_id transcript_text prompt : string) u s :
  (forall e w',
     get_transcript video_id (world s) = (Raise e, w') ->
     exists msg,
       msg = match e with
             | TranscriptsDisabled _ => "Subtitles are disabled for this video."
             | NoTranscriptFound _ => "No transcript found for this video language."
             | _ => "Error extracting transcript: " +:+ exn_str e
             end /\
       runs (extract_transcript_details video_id) s (Ok None) w'
            [Call_get_transcript video_id; St_error msg] /\
       runs (pipeline video_id) s (Ok tt) w'
            [Call_get_transcript video_id; St_error msg]) /\
  (forall frags f w',
     get_transcript video_id (world s) = (Ok frags, w') ->
     f ∈ frags ->
     (forall t, ~ has_text f t) ->
     exists detail,
       runs (extract_transcript_details video_id) s (Ok None) w'
            [Call_get_transcript video_id;
             St_error ("Error extracting transcript: " +:+ detail)] /\
       runs (pipeline video_id) s (Ok tt) w'
            [Call_get_transcript video_id;
             St_error ("Error extracting transcript: " +:+ detail)]) /\
  (forall e r w',
     generate_content "gemini-pro" (prompt +:+ transcript_text) (world s) = (r, w') ->
     r = Raise e \/ r = Ok {| text := Raise e |} ->
     runs (generate_gemini_content transcript_text prompt) s (Ok None) w'
          [Call_generate_content "gemini-pro" (prompt +:+ transcript_text);
           St_error ("Error generating summary: " +:+ exn_str e)]) /\
  (forall frags texts w1 e r w2,
     get_transcript video_id (world s) = (Ok frags, w1) ->
     Forall2 has_text frags texts ->
     texts <> [] ->
     generate_content "gemini-pro" (system_prompt +:+ spaced texts) w1 = (r, w2) ->
     r = Raise e \/ r = Ok {| text := Raise e |} ->
     runs (pipeline video_id) s (Ok tt) w2
          [Call_get_transcript video_id;
           Call_generate_content "gemini-pro" (system_prompt +:+ spaced texts);
           St_error ("Error generating summary: " +:+ exn_str e)]) /\
  (exists r w' evs, runs (extract_transcript_details video_id) s (Ok r) w' evs) /\
  (exists r w' evs,
     runs (generate_gemini_content transcript_text prompt) s (Ok r) w' evs) /\
  (exists w' evs,
     runs (pipeline video_id) s (Ok tt) w' evs /\
     forall before msg rest, evs = before ++ St_error msg :: rest -> rest = []) /\
  (exists w' evs, runs (app u) s (Ok tt) w' evs).
Proof.
  repeat apply conj.
  - intros e w' Hsvc. eexists. split; [reflexivity|].
    pose proof (extract_handles video_id s e w' [Call_get_transcript video_id]
                  (transcript_try_raises video_id s e w' Hsvc)) as Hfetch.
    split; [exact Hfetch|]. exact (pipeline_stops video_id s None w' _ Hfetch eq_refl).
  - intros frags f w' Hsvc Hin Hbad.
    destruct (first_bad_fragment frags f Hin Hbad)
      as (good & texts & f' & rest & -> & Hgood & Hf').
    destruct (bad_fragment_raises f' Hf') as (e & Hraise & Hclass).
    pose proof (extract_handles video_id s e w' [Call_get_transcript video_id]
                  (fetch_fails_runs video_id good texts f' rest e s w' Hsvc Hgood Hraise))
      as Hfetch.
    destruct Hclass as [[detail ->]|[detail ->]]; exists detail;
      (split; [exact Hfetch|exact (pipeline_stops video_id s None w' _ Hfetch eq_refl)]).
  - intros e r w' Hsvc Hr.
    exact (generate_handles transcript_text prompt s e w' _
             (generate_try_raises transcript_text prompt e r s w' Hsvc Hr)).
  - intros frags texts w1 e r w2 Hsvc Htexts Hne Hgen Hr.
    assert (Ht : Str.truthy (spaced texts) = true)
      by (destruct texts; [congruence|reflexivity]).
    pose proof (fetch_texts_runs video_id frags texts s w1 Hsvc Htexts) as Hfetch.
    pose proof (generate_handles (spaced texts) system_prompt
                  (after s w1 [Call_get_transcript video_id]) e w2 _
                  (generate_try_raises (spaced texts) system_prompt e r
                     (after s w1 [Call_get_transcript video_id]) w2 Hgen Hr))
      as Hfail.
    exact (pipeline_generates video_id (spaced texts) s w1 _ None w2 _ Hfetch Ht Hfail).
  - destruct (extract_transcript_details_runs video_id s) as (r & w' & evs & Hrun & _).
    eauto.
  - destruct (generate_gemini_content_runs transcript_text prompt s)
      as (r & w' & evs & Hrun & _).
    eauto.
  - destruct (pipeline_runs video_id s) as (fetched & _ & _ & w' & evs & _ & Hpipe & Hlog).
    exists w', evs. split; [exact Hpipe|].
    intros before msg rest E.
    destruct Hlog;
      repeat (destruct before as [|? before]; simplify_eq/=; try reflexivity).
  - destruct (app_runs u s) as (w' & evs & Hrun & _). eauto.
Qed.

End Errors.

(** C8, as stated, fails: an exception that is no instance of [Exception]
    leaves the fetcher and then the script.  When the interpreter raises
    [KeyboardInterrupt] inside the call to the transcript service, the
    fetcher raises it on and draws no message, and so does the whole run. *)
Lemma keyboard_interrupt_escapes :
  @extract_transcript_details unit interrupted "dQw4w9WgXcQ" (fresh tt)
  = (Raises (NotAnError KeyboardInterrupt),
     {| world := tt; log := [Call_get_transcript "dQw4w9WgXcQ"] |}) /\
  @app unit interrupted pressed (fresh tt)
  = (Raises (NotAnError KeyboardInterrupt),
     {| world := tt;
        log := page_to_spinner "dQw4w9WgXcQ" ++
               [Call_get_transcript "dQw4w9WgXcQ"; St_spinner_exit] |}).
Proof. split; vm_compute; reflexivity. Qed.

(** C8, amended, on a transcript service that cannot be reached and on
    captions of which one has no text. *)
Lemma errors_are_caught_witness :
  runs (extract_transcript_details "dQw4w9WgXcQ")
       (fresh (refusing (OtherException "timed out"))) (Ok None)
       (served (refusing (OtherException "timed out")))
       [Call_get_transcript "dQw4w9WgXcQ";
        St_error "Error extracting transcript: timed out"] /\
  exists detail,
    runs (pipeline "dQw4w9WgXcQ")
         (fresh (serving [ {[ "text" := PyStr "Hello" ]};
                           {[ "start" := PyFloat (S754_zero false) ]} ]))
         (Ok tt)
         (served (serving [ {[ "text" := PyStr "Hello" ]};
                            {[ "start" := PyFloat (S754_zero false) ]} ]))
         [Call_get_transcript "dQw4w9WgXcQ";
          St_error ("Error extracting transcript: " +:+ detail)].
Proof.
  split.
  - assert (Hsvc :
      get_transcript "dQw4w9WgXcQ" (world (fresh (refusing (OtherException "timed out"))))
      = (Raise (OtherException "timed out"), served (refusing (OtherException "timed out"))))
      by reflexivity.
    destruct (errors_are_caught "dQw4w9WgXcQ" "" "" pressed
                (fresh (refusing (OtherException "timed out")))) as (H1 & _).
    destruct (H1 _ _ Hsvc) as (msg & -> & Hrun & _). exact Hrun.
  - assert (Hsvc :
      get_transcript "dQw4w9WgXcQ"
        (world (fresh (serving [ {[ "text" := PyStr "Hello" ]};
                                 {[ "start" := PyFloat (S754_zero false) ]} ])))
      = (Ok [ {[ "text" := PyStr "Hello" ]}; {[ "start" := PyFloat (S754_zero false) ]} ],
         served (serving [ {[ "text" := PyStr "Hello" ]};
                           {[ "start" := PyFloat (S754_zero false) ]} ])))
      by reflexivity.
    assert (Hin : ({[ "start" := PyFloat (S754_zero false) ]} : fragment)
                  ∈ [ ({[ "text" := PyStr "Hello" ]} : fragment);
                      {[ "start" := PyFloat (S754_zero false) ]} ])
      by (apply elem_of_cons; right; apply elem_of_cons; left; reflexivity).
    assert (Hbad : forall t,
              ~ has_text ({[ "start" := PyFloat (S754_zero false) ]} : fragment) t)
      by (intros t Ht; vm_compute in Ht; discriminate Ht).
    destruct (errors_are_caught "dQw4w9WgXcQ" "" "" pressed
                (fresh (serving [ {[ "text" := PyStr "Hello" ]};
                                  {[ "start" := PyFloat (S754_zero false) ]} ])))
      as (_ & H2 & _).
    destruct (H2 _ _ _ Hsvc Hin Hbad) as (detail & _ & Hrun).
    exists detail. exact Hrun.
Defined.

(** The text of a [KeyError]: the key as [repr] writes it. *)
Example repr_text : Repr.repr "text" = "'text'".
Proof. vm_compute. reflexivity. Qed.

Example repr_with_apostrophe : Repr.repr "it's" = dq +:+ "it's" +:+ dq.
Proof. vm_compute. reflexivity. Qed.

Example repr_with_both_quotes :
  Repr.repr ("a'b" +:+ dq +:+ "c") = "'a\'b" +:+ dq +:+ "c'".
Proof. vm_compute. reflexivity. Qed.

Example repr_with_newline : Repr.repr (String "010" "") = "'\n'".
Proof. vm_compute. reflexivity. Qed.
